(** * pyteomics.mzxml: peak decoding and record post-processing

    A shallow embedding of [src/pyteomics/mzxml.py]: the peak decoder
    [_decode_peaks] (base64, optional zlib, big-endian words, bit-cast
    to float, de-interleaving) and the record post-processing of
    [MzXML._get_info_smart] (identity alias, peak arrays, retention
    time), together with the parts of the Python runtime they call. *)

From Stdlib Require Import ZArith List String Ascii Strings.Byte Bool Lia Wf_nat.
From Stdlib Require Import Floats.SpecFloat.
From stdpp Require Import base option gmap strings.

Set Warnings "-register-all".

Local Open Scope string_scope.
Local Open Scope list_scope.
Local Open Scope Z_scope.

(** ** Python runtime: exceptions and results *)

(** The exceptions the modelled code can raise. *)
Inductive exn : Set :=
  | UnicodeEncodeError   (* str.encode('ascii') on a non-ASCII character *)
  | binascii_Error       (* base64.b64decode: incomplete quantum *)
  | zlib_error           (* zlib.decompress *)
  | struct_error         (* struct.unpack / struct.pack *)
  | KeyError
  | IndexError
  | TypeError
  | AttributeError
  | ValueError.

(** A computation either returns a value or raises. *)
Inductive result (A : Type) : Type :=
  | Ok (a : A)
  | Raise (e : exn).
Arguments Ok {A} a.
Arguments Raise {A} e.

Definition result_bind {A B : Type} (f : A -> result B) (m : result A) : result B :=
  match m with
  | Ok a => f a
  | Raise e => Raise e
  end.

#[global] Instance result_mret : MRet result := fun A a => Ok a.
#[global] Instance result_mbind : MBind result := fun A B f m => result_bind f m.

(** ** Bytes *)

Definition byte_to_Z (b : byte) : Z := Z.of_N (Byte.to_N b).

(** Storing an int into an [unsigned char]: reduction modulo 256. *)
Definition byte_of_Z (z : Z) : byte :=
  match Byte.of_N (Z.to_N (z mod 256)) with
  | Some b => b
  | None => x00
  end.

(** [peaks_data.encode('ascii')]: one byte per character, failing on the
    first character outside the 7-bit range. *)
Fixpoint encode_ascii (s : string) : result (list byte) :=
  match s with
  | EmptyString => Ok []
  | String c rest =>
      if (N_of_ascii c <? 128)%N
      then bs ← encode_ascii rest; Ok (byte_of_ascii c :: bs)
      else Raise UnicodeEncodeError
  end.

(** ** [base64.b64decode] with its default [validate=False]

    This is [binascii.a2b_base64] of CPython in its non-strict mode: a
    single pass over the input that keeps the position inside the
    current 4-character quantum, the bits left over from the previous
    character and the number of pad characters seen. *)
Module binascii.

Definition BASE64_PAD : Z := 61.   (* '=' *)

(** [table_a2b_base64]: the 6-bit value of an alphabet character, 255
    (the table's -1 as [unsigned char]) for every other byte; the pad
    character maps to 0 in the table but is handled before the lookup. *)
Definition table_a2b_base64 (c : Z) : Z :=
  if (65 <=? c) && (c <=? 90) then c - 65            (* A-Z *)
  else if (97 <=? c) && (c <=? 122) then c - 71      (* a-z *)
  else if (48 <=? c) && (c <=? 57) then c + 4        (* 0-9 *)
  else if c =? 43 then 62                            (* + *)
  else if c =? 47 then 63                            (* / *)
  else if c =? 61 then 0
  else 255.

Record state : Type := State {
  quad_pos : Z;            (* 0..3 *)
  leftchar : Z;            (* unsigned char *)
  pads : Z;
  bin_data : list byte     (* bytes written so far *)
}.

Definition init : state := State 0 0 0 [].

(** What one iteration of the [for] loop does with the control flow. *)
Inductive control : Type :=
  | Continue (st : state)   (* next iteration *)
  | Done (st : state).      (* [goto done] *)

Definition put (st : state) (qp : Z) (b : Z) (lc : Z) : state :=
  State qp lc 0 (bin_data st ++ [byte_of_Z b]).

Definition step (st : state) (c : byte) : control :=
  let this_ch := byte_to_Z c in
  if this_ch =? BASE64_PAD then
    if 2 <=? quad_pos st then
      (* [quad_pos >= 2 && quad_pos + ++pads >= 4] *)
      let pads' := pads st + 1 in
      let st' := State (quad_pos st) (leftchar st) pads' (bin_data st) in
      if 4 <=? quad_pos st + pads' then Done st' else Continue st'
    else Continue st
  else
    let this_ch := table_a2b_base64 this_ch in
    if 64 <=? this_ch then Continue st
    else
      (* pads = 0; switch (quad_pos) *)
      if quad_pos st =? 0 then
        Continue (State 1 this_ch 0 (bin_data st))
      else if quad_pos st =? 1 then
        Continue (put st 2 (Z.lor (Z.shiftl (leftchar st) 2) (Z.shiftr this_ch 4))
                         (Z.land this_ch 15))
      else if quad_pos st =? 2 then
        Continue (put st 3 (Z.lor (Z.shiftl (leftchar st) 4) (Z.shiftr this_ch 2))
                         (Z.land this_ch 3))
      else
        Continue (put st 0 (Z.lor (Z.shiftl (leftchar st) 6) this_ch) 0).

(** The loop; the boolean tells whether it was left through [done]. *)
Fixpoint loop (ascii_data : list byte) (st : state) : state * bool :=
  match ascii_data with
  | [] => (st, false)
  | c :: rest =>
      match step st c with
      | Continue st' => loop rest st'
      | Done st' => (st', true)
      end
  end.

Definition a2b_base64 (ascii_data : list byte) : result (list byte) :=
  let '(st, done) := loop ascii_data init in
  if done then Ok (bin_data st)
  else if quad_pos st =? 0 then Ok (bin_data st)
  else Raise binascii_Error.

End binascii.

Definition b64decode (s : list byte) : result (list byte) := binascii.a2b_base64 s.

(** ** Python values *)

(** A Python [float] is an IEEE-754 binary64 number. *)
Definition pyfloat : Type := spec_float.

Definition prec64 : Z := 53.
Definition emax64 : Z := 1024.

(** The binary64 number nearest to [m * 2^e] (exact when [m] fits in 53
    bits and the exponent is in range), in canonical form. *)
Definition b64_round (m e : Z) (szero : bool) : pyfloat :=
  binary_normalize prec64 emax64 m e szero.

(** What a record field can hold. *)
Inductive value : Type :=
  | VNone
  | VStr (s : string)
  | VInt (z : Z)
  | VBool (b : bool)
  | VFloat (f : pyfloat)
  | VArray (a : list pyfloat)          (* numpy float64 array *)
  | VDict (d : gmap string value)
  | VList (l : list value).

(** [info.get(k) == s] for a string constant [s]. *)
Definition get_eq_str (info : gmap string value) (k s : string) : bool :=
  match info !! k with
  | Some (VStr t) => String.eqb t s
  | _ => false
  end.

(** [info[k] == s], raising [KeyError] when the key is missing. *)
Definition item_eq_str (info : gmap string value) (k s : string) : result bool :=
  match info !! k with
  | Some (VStr t) => Ok (String.eqb t s)
  | Some _ => Ok false
  | None => Raise KeyError
  end.

(** ** IEEE-754 binary32 *)
Module ieee754.

(** The C [float] with bit pattern [d], widened to [double] (which is
    what a Python float holds); the widening is exact. *)
Definition float_of_bits32 (d : Z) : pyfloat :=
  let s := Z.testbit d 31 in
  let e := Z.land (Z.shiftr d 23) 255 in
  let m := Z.land d (Z.ones 23) in
  if e =? 255 then (if m =? 0 then S754_infinity s else S754_nan)
  else if e =? 0 then b64_round (cond_Zopp s m) (-149) s
  else b64_round (cond_Zopp s (m + 2 ^ 23)) (e - 150) s.

End ieee754.

(** ** The [struct] module *)
Module struct.

Inductive byteorder : Set := little | big.

(** The unsigned integer held by bytes in big-endian order. *)
Definition uint_be (bs : list byte) : Z :=
  fold_left (fun acc b => acc * 256 + byte_to_Z b) bs 0.

Definition uint_native (bo : byteorder) (bs : list byte) : Z :=
  match bo with
  | big => uint_be bs
  | little => uint_be (rev bs)
  end.

(** The successive 4-byte big-endian words of a buffer. *)
Fixpoint words_be (data : list byte) : list Z :=
  match data with
  | b0 :: b1 :: b2 :: b3 :: rest => uint_be [b0; b1; b2; b3] :: words_be rest
  | _ => []
  end.

(** [struct.unpack(">%dL" % count, data)]: [count] unsigned 4-byte
    big-endian integers; the buffer must have exactly [4 * count]
    bytes. *)
Definition unpack_BE_L (count : Z) (data : list byte) : result (list Z) :=
  if Z.of_nat (length data) =? 4 * count
  then Ok (words_be data)
  else Raise struct_error.

(** [struct.pack("I", d)]: the four bytes of an [unsigned int] in the
    machine's byte order; out-of-range arguments are refused. *)
Definition pack_I (bo : byteorder) (d : Z) : result (list byte) :=
  if (0 <=? d) && (d <? 2 ^ 32) then
    let bs := [byte_of_Z (Z.shiftr d 24); byte_of_Z (Z.shiftr d 16);
               byte_of_Z (Z.shiftr d 8); byte_of_Z d] in
    Ok (match bo with big => bs | little => rev bs end)
  else Raise struct_error.

(** [struct.unpack("f", bs)]: a one-element tuple holding the C
    [float] stored in four bytes in the machine's byte order. *)
Definition unpack_f (bo : byteorder) (bs : list byte) : result (list pyfloat) :=
  if Z.of_nat (length bs) =? 4
  then Ok [ieee754.float_of_bits32 (uint_native bo bs)]
  else Raise struct_error.

End struct.

(** [t[0]] on a tuple. *)
Definition item0 {A : Type} (t : list A) : result A :=
  match t with
  | x :: _ => Ok x
  | [] => Raise IndexError
  end.

(** ** NumPy arrays *)
Module numpy.

(** A one-dimensional float64 array. *)
Definition ndarray : Type := list pyfloat.

(** [np.array(object)] on a list of Python floats. *)
Definition array (object : list pyfloat) : ndarray := object.

(** [np.array()]: the required argument [object] is missing. *)
Definition array_noargs : result ndarray := Raise TypeError.

End numpy.

(** ** The peak decoder (lines 8-45) *)
Section Decoder.

(** [zlib.decompress], from the zlib library. *)
Variable zlib_decompress : list byte -> result (list byte).
(** [sys.byteorder] of the machine the code runs on. *)
Variable native : struct.byteorder.

(** Line 39: [struct.unpack("f", struct.pack("I", d))[0]]. *)
Definition bitcast (d : Z) : result pyfloat :=
  packed ← struct.pack_I native d;
  t ← struct.unpack_f native packed;
  item0 t.

(** Lines 35-45: the loop that casts and de-interleaves, and the
    final conversion to arrays. *)
Fixpoint split_loop (unpacked : list Z) (i : Z) (mzs intensities : list pyfloat)
  : result (numpy.ndarray * numpy.ndarray) :=
  match unpacked with
  | [] => Ok (numpy.array mzs, numpy.array intensities)
  | d :: rest =>
      v ← bitcast d;
      if i mod 2 =? 0
      then split_loop rest (i + 1) (mzs ++ [v]) intensities
      else split_loop rest (i + 1) mzs (intensities ++ [v])
  end.

(** Lines 29-45, on the raw buffer. [len(data) / prec] is a floor
    division in Python 2; in Python 3 it is a float that ["%d"]
    truncates, which is the same number. *)
Definition decode_buffer (info : gmap string value) (data : list byte)
  : result (numpy.ndarray * numpy.ndarray) :=
  is32 ← item_eq_str info "precision" "32";
  let prec := if is32 : bool then 4 else 8 in
  let width := Z.of_nat (length data) / prec in
  unpacked ← struct.unpack_BE_L width data;
  split_loop unpacked 0 [] [].

(** Lines 25-28: text to raw buffer. *)
Definition raw_buffer (info : gmap string value) (peaks_data : string)
  : result (list byte) :=
  content ← encode_ascii peaks_data;
  data ← b64decode content;
  if get_eq_str info "compressionType" "zlib"
  then zlib_decompress data
  else Ok data.

Definition _decode_peaks (info : gmap string value) (peaks_data : string)
  : result (numpy.ndarray * numpy.ndarray) :=
  data ← raw_buffer info peaks_data;
  decode_buffer info data.

End Decoder.

(** ** [str.strip(chars)] *)

Definition char_in (c : ascii) (chars : string) : bool :=
  existsb (Ascii.eqb c) (list_ascii_of_string chars).

Fixpoint lstrip_list (chars : string) (s : list ascii) : list ascii :=
  match s with
  | c :: rest => if char_in c chars then lstrip_list chars rest else s
  | [] => []
  end.

(** Removes every leading and every trailing character that belongs to
    the set [chars]. *)
Definition str_strip (chars : string) (s : string) : string :=
  let l := lstrip_list chars (list_ascii_of_string s) in
  string_of_list_ascii (rev (lstrip_list chars (rev l))).

(** ** [float(text)]

    The text is stripped of surrounding whitespace, underscores between
    digits are dropped, and what remains must be, after an optional
    sign, [inf], [infinity] or [nan] in any letter case, or a decimal
    number with an optional exponent; the result is the binary64 number
    nearest to the decimal value (ties to even). *)
Module pyfloat_parse.

Definition code (c : ascii) : Z := Z.of_N (N_of_ascii c).

(** The characters that are stripped, among the first 256 code points:
    the ASCII whitespace of C, and the two non-ASCII Unicode spaces. *)
Definition is_space (c : Z) : bool :=
  ((9 <=? c) && (c <=? 13)) || (c =? 32) || (c =? 133) || (c =? 160).

Definition is_digit (c : Z) : bool := (48 <=? c) && (c <=? 57).

Fixpoint lstrip_space (s : list Z) : list Z :=
  match s with
  | c :: rest => if is_space c then lstrip_space rest else s
  | [] => []
  end.

Definition strip_space (s : list Z) : list Z :=
  rev (lstrip_space (rev (lstrip_space s))).

(** Underscores may only sit between two digits; [None] when one does
    not, otherwise the text without them. *)
Fixpoint drop_underscores (prev : Z) (s : list Z) : option (list Z) :=
  match s with
  | [] => if prev =? 95 then None else Some []
  | c :: rest =>
      if c =? 95 then
        if is_digit prev then drop_underscores c rest else None
      else if (prev =? 95) && negb (is_digit c) then None
      else r ← drop_underscores c rest; Some (c :: r)
  end.

Definition lower (c : Z) : Z :=
  if (65 <=? c) && (c <=? 90) then c + 32 else c.

Definition sign_of (s : list Z) : bool * list Z :=
  match s with
  | 45 :: rest => (true, rest)
  | 43 :: rest => (false, rest)
  | _ => (false, s)
  end.

(** The leading digits of [s], their value appended to [acc], how many
    there were, and the rest. *)
Fixpoint digits (s : list Z) (acc : Z) (n : Z) : Z * Z * list Z :=
  match s with
  | c :: rest =>
      if is_digit c then digits rest (10 * acc + (c - 48)) (n + 1)
      else (acc, n, s)
  | [] => (acc, n, [])
  end.

(** The binary64 number nearest to [(-1)^neg * n * 10^e10], for [n >= 0].
    For a negative exponent the quotient is computed with at least 55
    significant bits and a sticky bit, which rounds as the exact
    value does. *)
Definition round_decimal (neg : bool) (n e10 : Z) : pyfloat :=
  if n =? 0 then S754_zero neg
  else if 0 <=? e10 then b64_round (cond_Zopp neg (n * 10 ^ e10)) 0 neg
  else
    let d := 10 ^ (- e10) in
    let k := Z.max 0 (56 + Z.log2 d - Z.log2 n) in
    let q := (n * 2 ^ k) / d in
    let sticky := if (n * 2 ^ k) mod d =? 0 then 0 else 1 in
    b64_round (cond_Zopp neg (2 * q + sticky)) (- k - 1) neg.

(** The exponent part: [e], an optional sign and at least one digit;
    anything else is left unread. *)
Definition exponent (s : list Z) : Z * list Z :=
  match s with
  | c :: rest =>
      if lower c =? 101 then
        let '(eneg, r1) := sign_of rest in
        let '(ev, en, r2) := digits r1 0 0 in
        if en =? 0 then (0, s) else (if eneg : bool then - ev else ev, r2)
      else (0, s)
  | [] => (0, [])
  end.

Definition number (neg : bool) (s : list Z) : result pyfloat :=
  let '(iv, inum, s1) := digits s 0 0 in
  let '(v, fnum, s2) :=
    match s1 with
    | 46 :: r => let '(v, n, r') := digits r iv 0 in (v, n, r')
    | _ => (iv, 0, s1)
    end in
  if inum + fnum =? 0 then Raise ValueError
  else
    let '(ev, s3) := exponent s2 in
    match s3 with
    | [] => Ok (round_decimal neg v (ev - fnum))
    | _ => Raise ValueError
    end.

Definition inf_or_nan (neg : bool) (s : list Z) : option pyfloat :=
  let w := map lower s in
  if decide (w = [105; 110; 102]) then Some (S754_infinity neg)
  else if decide (w = [105; 110; 102; 105; 110; 105; 116; 121]) then Some (S754_infinity neg)
  else if decide (w = [110; 97; 110]) then Some S754_nan
  else None.

Definition parse (text : string) : result pyfloat :=
  let s := strip_space (map code (list_ascii_of_string text)) in
  match drop_underscores 0 s with
  | None => Raise ValueError
  | Some s =>
      let '(neg, body) := sign_of s in
      match inf_or_nan neg body with
      | Some f => Ok f
      | None => number neg body
      end
  end.

(** The characters a decimal number is made of. *)
Definition numchar (c : Z) : Prop :=
  is_digit c = true \/ c = 46 \/ lower c = 101 \/ c = 43 \/ c = 45.

End pyfloat_parse.

Definition py_float (text : string) : result pyfloat := pyfloat_parse.parse text.

(** ** The class [MzXML] (lines 48-127) *)
Module MzXML.

Definition _root_element : string := "mzXML".
Definition _default_iter_tag : string := "scan".
Definition _indexed_tags : list string := ["scan"].
Definition _indexed_tag_keys : list (string * string) := [("scan", "num")].

(** The kinds of the schema table. *)
Inductive kind : Set :=
  | bools | charlists | floatlists | floats | intlists | ints.

(** [_default_schema]: for each kind the (element, field) pairs that
    have it, and the elements whose occurrences are always a list. *)
Definition _default_schema (k : kind) : list (string * string) :=
  match k with
  | bools =>
      [("dataProcessing", "centroided");
       ("dataProcessing", "chargeDeconvoluted");
       ("dataProcessing", "deisotoped");
       ("dataProcessing", "spotIntegration");
       ("maldi", "collisionGas");
       ("scan", "centroided");
       ("scan", "chargeDeconvoluted");
       ("scan", "deisotoped")]
  | charlists => []
  | floatlists => []
  | floats =>
      [("dataProcessing", "intensityCutoff");
       ("precursorMz", "precursorIntensity");
       ("precursorMz", "windowWideness");
       ("precursorMz", "precursorMz");
       ("scan", "basePeakIntensity");
       ("scan", "basePeakMz");
       ("scan", "cidGasPressure");
       ("scan", "collisionEnergy");
       ("scan", "compensationVoltage");
       ("scan", "endMz");
       ("scan", "highMz");
       ("scan", "ionisationEnergy");
       ("scan", "lowMz");
       ("scan", "startMz");
       ("scan", "totIonCurrent")]
  | intlists => []
  | ints =>
      [("msInstrument", "msInstrumentID");
       ("peaks", "compressedLen");
       ("robot", "deadVolume");
       ("scan", "msInstrumentID");
       ("scan", "peaksCount");
       ("scanOrigin", "num")]
  end.

Definition _default_schema_lists : list string :=
  ["dataProcessing"; "msInstrument"; "parentFile"; "peaks"; "plate";
   "precursorMz"; "scanOrigin"; "spot"].

Definition pair_eqb (p q : string * string) : bool :=
  String.eqb (fst p) (fst q) && String.eqb (snd p) (snd q).

(** [(element, field) in _default_schema[k]]. *)
Definition in_schema (k : kind) (element field : string) : bool :=
  existsb (pair_eqb (element, field)) (_default_schema k).

(** [peaks_data[key]] on whatever the list held. *)
Definition getitem (peaks_data : value) (key : string) : result value :=
  match peaks_data with
  | VDict d =>
      match d !! key with
      | Some v => Ok v
      | None => Raise KeyError
      end
  | VArray _ => Raise IndexError
  | _ => Raise TypeError
  end.

(** [info.pop('peaks')[0]] on a dict or a list: a dict with string
    keys has no key [0]. *)
Definition first_item (peaks : value) : result value :=
  match peaks with
  | VList (x :: _) => Ok x
  | VList [] => Raise IndexError
  | VDict _ => Raise KeyError
  | _ => Raise TypeError
  end.

(** Lines 119-120, the body of the [try]: the record as the body left
    it, and the exception that interrupted it, if any. *)
Definition try_copy (info : gmap string value) (peaks_data : value)
  : gmap string value * option exn :=
  match getitem peaks_data "m/z array" with
  | Raise e => (info, Some e)
  | Ok mz =>
      let info1 := <["m/z array" := mz]> info in
      match getitem peaks_data "intensity array" with
      | Raise e => (info1, Some e)
      | Ok it => (<["intensity array" := it]> info1, None)
      end
  end.

(** Lines 122-123, the [except KeyError] handler. *)
Definition on_KeyError (info : gmap string value) : result (gmap string value) :=
  a ← numpy.array_noargs;
  let info1 := <["m/z array" := VArray a]> info in
  b ← numpy.array_noargs;
  Ok (<["intensity array" := VArray b]> info1).

(** Lines 108-109. *)
Definition alias_id (info : gmap string value) : gmap string value :=
  match info !! "num" with
  | Some v => <["id" := v]> info
  | None => info
  end.

(** Lines 125-126. A value that is not a string has no [strip]. *)
Definition retention_time (info : gmap string value) : result (gmap string value) :=
  match info !! "retentionTime" with
  | None => Ok info
  | Some (VStr s) =>
      f ← py_float (str_strip "PTS" s);
      Ok (<["retentionTime" := VFloat f]> info)
  | Some _ => Raise AttributeError
  end.

(** The [recursive] flag that [_get_info_smart] passes on: the one it
    was given, and otherwise false for the root element and true for
    every other element. *)
Definition effective_recursive (name : string) (rec : option bool) : bool :=
  match rec with
  | Some r => r
  | None => negb (String.eqb name "mzXML")
  end.

Section Assembler.

Variable zlib_decompress : list byte -> result (list byte).
Variable native : struct.byteorder.

(** Lines 110-123. [info.pop('peaks')] is evaluated before the call,
    so the decoder sees the record without its [peaks] entry; a
    value that is not a string has no [encode]. *)
Definition merge_peaks (info : gmap string value) : result (gmap string value) :=
  match info !! "peaks" with
  | None => Ok info
  | Some peaks =>
      let info' := delete "peaks" info in
      match peaks with
      | VDict _ | VList _ =>
          peaks_data ← first_item peaks;
          match try_copy info' peaks_data with
          | (info1, None) => Ok info1
          | (info1, Some KeyError) => on_KeyError info1
          | (_, Some e) => Raise e
          end
      | VStr text =>
          '(mz_array, intensity_array) ← _decode_peaks zlib_decompress native info' text;
          Ok (<["intensity array" := VArray intensity_array]>
                (<["m/z array" := VArray mz_array]> info'))
      | _ => Raise AttributeError
      end
  end.

(** Lines 108-127: what [_get_info_smart] does to the record that
    [_get_info] returned. *)
Definition post_process (info : gmap string value) : result (gmap string value) :=
  info1 ← merge_peaks (alias_id info);
  retention_time info1.

(** The element tree and the inherited [_get_info] belong to the
    XML reader of the package. *)
Variable element : Type.
Variable kwargs : Type.
Variable _local_name : element -> string.
Variable _get_info : element -> bool -> kwargs -> result (gmap string value).

(** Lines 95-127. [rec] is the [recursive] keyword, [None] when it
    is missing or [None]. *)
Definition _get_info_smart (elt : element) (rec : option bool) (kw : kwargs)
  : result (gmap string value) :=
  let name := _local_name elt in
  info ← (if String.eqb name "mzXML"
          then _get_info elt (match rec with Some r => r | None => false end) kw
          else _get_info elt (match rec with Some r => r | None => true end) kw);
  post_process info.

End Assembler.

End MzXML.

(** ** The writer's side

    What a producer of mzXML files does to a sequence of values; the
    decoder is checked against it. *)
Module writer.

(** The character of a 6-bit value in the base64 alphabet. *)
Definition alphabet (s : Z) : Z :=
  if s <? 26 then s + 65
  else if s <? 52 then s + 71
  else if s <? 62 then s - 4
  else if s =? 62 then 43
  else 47.

Definition PAD : byte := byte_of_Z 61.

Definition sextets3 (a b c : Z) : list byte :=
  [byte_of_Z (alphabet (Z.shiftr a 2));
   byte_of_Z (alphabet (Z.lor (Z.shiftl (Z.land a 3) 4) (Z.shiftr b 4)));
   byte_of_Z (alphabet (Z.lor (Z.shiftl (Z.land b 15) 2) (Z.shiftr c 6)));
   byte_of_Z (alphabet (Z.land c 63))].

(** Standard base64 with padding. *)
Fixpoint b64encode (data : list byte) : list byte :=
  match data with
  | [] => []
  | [a] => firstn 2 (sextets3 (byte_to_Z a) 0 0) ++ [PAD; PAD]
  | [a; b] => firstn 3 (sextets3 (byte_to_Z a) (byte_to_Z b) 0) ++ [PAD]
  | a :: b :: c :: rest =>
      sextets3 (byte_to_Z a) (byte_to_Z b) (byte_to_Z c) ++ b64encode rest
  end.

Definition b64text (data : list byte) : string :=
  string_of_list_byte (b64encode data).

(** [struct.pack(">%dL" % len(ws), *ws)]: each 32-bit pattern as four
    bytes, most significant first. *)
Definition pack_BE_L (ws : list Z) : list byte :=
  flat_map (fun d => [byte_of_Z (Z.shiftr d 24); byte_of_Z (Z.shiftr d 16);
                      byte_of_Z (Z.shiftr d 8); byte_of_Z d]) ws.

(** A sequence of 32-bit floats, given by their bit patterns. *)
Definition is_uint32 (d : Z) : Prop := 0 <= d < 2 ^ 32.

(** Every other element of a list, starting with the first one when
    [take] is true and with the second one otherwise. *)
Fixpoint alternate {A : Type} (take : bool) (l : list A) : list A :=
  match l with
  | [] => []
  | x :: rest => if take then x :: alternate false rest else alternate true rest
  end.

(** The values at even positions (0-based), and those at odd positions. *)
Definition evens {A : Type} (l : list A) : list A := alternate true l.
Definition odds {A : Type} (l : list A) : list A := alternate false l.

(** Text that a strict reader accepts as base64: only alphabet
    characters, in groups of four, the last group possibly ending in
    one or two pad characters. *)
Definition is_pad (c : byte) : bool := byte_to_Z c =? binascii.BASE64_PAD.

Definition is_alphabet (c : byte) : bool :=
  negb (is_pad c) && (binascii.table_a2b_base64 (byte_to_Z c) <? 64).

Fixpoint valid_base64 (s : list byte) : bool :=
  match s with
  | [] => true
  | [a; b; c; d] =>
      is_alphabet a && is_alphabet b
      && ((is_pad c && is_pad d) || (is_alphabet c && (is_pad d || is_alphabet d)))
  | a :: b :: c :: d :: rest =>
      is_alphabet a && is_alphabet b && is_alphabet c && is_alphabet d
      && valid_base64 rest
  | _ => false
  end.

(** How many alphabet characters, and how many pad characters, a text has. *)
Definition count_alphabet (s : list byte) : Z :=
  Z.of_nat (length (filter (fun c => is_alphabet c = true) s)).
Definition count_pad (s : list byte) : Z :=
  Z.of_nat (length (filter (fun c => is_pad c = true) s)).

(** The padding a text with [n] alphabet characters followed by [k]
    pad characters lacks: an incomplete last group. *)
Definition bad_padding (n k : Z) : Prop :=
  n mod 4 = 1 \/ (n mod 4 = 2 /\ k < 2) \/ (n mod 4 = 3 /\ k < 1).

(** Removing a leading ["PT"] and a trailing ["S"], each if present. *)
Definition strip_markers (s : string) : string :=
  let l := list_ascii_of_string s in
  let l1 := match l with
            | a :: b :: rest =>
                if Ascii.eqb a "P" && Ascii.eqb b "T" then rest else l
            | _ => l
            end in
  match rev l1 with
  | c :: r => if Ascii.eqb c "S" then string_of_list_ascii (rev r)
              else string_of_list_ascii l1
  | [] => string_of_list_ascii l1
  end.

(** The marker characters [P], [T], [S], by code. *)
Definition marker (c : Z) : Prop := c = 80 \/ c = 84 \/ c = 83.

(** A text that neither starts nor ends with a marker. *)
Definition clean_ends (l : list Z) : Prop :=
  exists a b, head l = Some a /\ last l = Some b /\ ~ marker a /\ ~ marker b.

End writer.

(** ** A zlib codec restricted to stored blocks

    Streams in the zlib container (RFC 1950) whose deflate data
    (RFC 1951) consists of stored blocks only: what compression level 0
    writes. It serves as a concrete instance of the library. *)
Module zlib_stored.

Definition adler32 (data : list byte) : Z :=
  let '(a, b) := fold_left (fun '(a, b) x =>
                              let a' := (a + byte_to_Z x) mod 65521 in
                              (a', (b + a') mod 65521)) data (1, 0) in
  b * 65536 + a.

Definition u16le (n : Z) : list byte := [byte_of_Z n; byte_of_Z (Z.shiftr n 8)].
Definition u32be (n : Z) : list byte :=
  [byte_of_Z (Z.shiftr n 24); byte_of_Z (Z.shiftr n 16);
   byte_of_Z (Z.shiftr n 8); byte_of_Z n].

Fixpoint blocks (fuel : nat) (data : list byte) : list byte :=
  match fuel with
  | O => []
  | S fuel =>
      let n := Z.of_nat (length data) in
      if n <=? 65535
      then byte_of_Z 1 :: u16le n ++ u16le (65535 - n) ++ data
      else byte_of_Z 0 :: u16le 65535 ++ u16le 0
             ++ firstn (Z.to_nat 65535) data
             ++ blocks fuel (skipn (Z.to_nat 65535) data)
  end.

Definition compress (data : list byte) : list byte :=
  byte_of_Z 120 :: byte_of_Z 1 :: blocks (S (length data)) data ++ u32be (adler32 data).

Fixpoint inflate (fuel : nat) (s : list byte) : result (list byte * list byte) :=
  match fuel with
  | O => Raise zlib_error
  | S fuel =>
      match s with
      | h :: l0 :: l1 :: n0 :: n1 :: rest =>
          let len := byte_to_Z l0 + 256 * byte_to_Z l1 in
          let nlen := byte_to_Z n0 + 256 * byte_to_Z n1 in
          if negb (Z.land (Z.shiftr (byte_to_Z h) 1) 3 =? 0) then Raise zlib_error
          else if negb (len + nlen =? 65535) then Raise zlib_error
          else if Z.of_nat (length rest) <? len then Raise zlib_error
          else
            let block := firstn (Z.to_nat len) rest in
            let rest' := skipn (Z.to_nat len) rest in
            if Z.testbit (byte_to_Z h) 0 then Ok (block, rest')
            else '(d, r) ← inflate fuel rest'; Ok (block ++ d, r)
      | _ => Raise zlib_error
      end
  end.

Definition decompress (s : list byte) : result (list byte) :=
  match s with
  | cmf :: flg :: body =>
      let c := byte_to_Z cmf in
      let f := byte_to_Z flg in
      if negb (Z.land c 15 =? 8) || negb ((c * 256 + f) mod 31 =? 0)
         || Z.testbit f 5
      then Raise zlib_error
      else
        '(d, r) ← inflate (S (length body)) body;
        if decide (map byte_to_Z (firstn 4 r) = map byte_to_Z (u32be (adler32 d)))
        then Ok d else Raise zlib_error
  | _ => Raise zlib_error
  end.

End zlib_stored.
(** * Properties *)

(** ** Bytes *)

Lemma byte_to_Z_range (b : byte) : 0 <= byte_to_Z b < 256.
Proof.
  unfold byte_to_Z. pose proof (Byte.to_N_bounded b). lia.
Qed.

Lemma byte_of_to_Z (b : byte) : byte_of_Z (byte_to_Z b) = b.
Proof.
  unfold byte_of_Z. pose proof (byte_to_Z_range b) as Hr.
  rewrite Z.mod_small by lia. unfold byte_to_Z.
  rewrite N2Z.id, Byte.of_to_N. reflexivity.
Qed.

Lemma byte_to_of_Z (z : Z) : 0 <= z < 256 -> byte_to_Z (byte_of_Z z) = z.
Proof.
  intros Hz. unfold byte_of_Z, byte_to_Z. rewrite Z.mod_small by lia.
  destruct (Byte.of_N (Z.to_N z)) as [b|] eqn:E.
  - apply Byte.to_of_N in E. rewrite E. lia.
  - apply Byte.of_N_None_iff in E. lia.
Qed.

Lemma byte_to_of_Z_mod (z : Z) : byte_to_Z (byte_of_Z z) = z mod 256.
Proof.
  unfold byte_of_Z, byte_to_Z.
  assert (0 <= z mod 256 < 256) by (apply Z.mod_pos_bound; lia).
  destruct (Byte.of_N (Z.to_N (z mod 256))) as [b|] eqn:E.
  - apply Byte.to_of_N in E. rewrite E. lia.
  - apply Byte.of_N_None_iff in E. lia.
Qed.

Lemma byte_to_Z_inj (a b : byte) : byte_to_Z a = byte_to_Z b -> a = b.
Proof.
  intros H. rewrite <- (byte_of_to_Z a), <- (byte_of_to_Z b). now rewrite H.
Qed.

(** ** Bit operations as arithmetic *)

Lemma land_shifted_small (x y k : Z) :
  0 <= k -> 0 <= y < 2 ^ k -> Z.land (x * 2 ^ k) y = 0.
Proof.
  intros Hk Hy. apply Z.bits_inj'. intros i Hi.
  rewrite Z.land_spec, Z.bits_0.
  destruct (Z.ltb_spec i k).
  - rewrite Z.mul_pow2_bits_low by lia. reflexivity.
  - destruct (Z.eq_dec y 0) as [->|Hy0].
    + rewrite Z.bits_0. apply andb_false_r.
    + rewrite (Z.bits_above_log2 y i), andb_false_r; try lia.
      apply Z.log2_lt_pow2; try lia.
      apply Z.lt_le_trans with (2 ^ k); try lia.
      apply Z.pow_le_mono_r; lia.
Qed.

Lemma lor_shifted_small (x y k : Z) :
  0 <= k -> 0 <= y < 2 ^ k -> Z.lor (x * 2 ^ k) y = x * 2 ^ k + y.
Proof.
  intros Hk Hy. pose proof (Z.add_lor_land (x * 2 ^ k) y) as H.
  rewrite land_shifted_small in H by assumption. lia.
Qed.

Lemma shiftr_div (a k : Z) : 0 <= k -> Z.shiftr a k = a / 2 ^ k.
Proof. intros. now apply Z.shiftr_div_pow2. Qed.

Lemma shiftl_mul (a k : Z) : 0 <= k -> Z.shiftl a k = a * 2 ^ k.
Proof. intros. now apply Z.shiftl_mul_pow2. Qed.

Lemma land_3 (a : Z) : Z.land a 3 = a mod 4.
Proof. change 3 with (Z.ones 2). now rewrite Z.land_ones. Qed.

Lemma land_15 (a : Z) : Z.land a 15 = a mod 16.
Proof. change 15 with (Z.ones 4). now rewrite Z.land_ones. Qed.

Lemma land_63 (a : Z) : Z.land a 63 = a mod 64.
Proof. change 63 with (Z.ones 6). now rewrite Z.land_ones. Qed.

Lemma land_255 (a : Z) : Z.land a 255 = a mod 256.
Proof. change 255 with (Z.ones 8). now rewrite Z.land_ones. Qed.

(** [Z.lor (Z.shiftl x k) y] with [y] below [2^k] is a sum. *)
Lemma lor_shiftl (x y k : Z) :
  0 <= k -> 0 <= y < 2 ^ k -> Z.lor (Z.shiftl x k) y = x * 2 ^ k + y.
Proof.
  intros Hk Hy. rewrite shiftl_mul by assumption. now apply lor_shifted_small.
Qed.

#[local] Ltac divmod := Z.div_mod_to_equations; lia.

(** Case analysis on every integer comparison of the goal. *)
#[local] Ltac zcases :=
  repeat match goal with
         | |- context [?x <=? ?y] => destruct (Z.leb_spec x y)
         | |- context [?x <? ?y] => destruct (Z.ltb_spec x y)
         | |- context [?x =? ?y] => destruct (Z.eqb_spec x y)
         end; simpl; try lia; try reflexivity.

(** ** Base64: the decoder inverts the encoder *)

Lemma alphabet_range (s : Z) : 0 <= s < 64 -> 0 <= writer.alphabet s < 128.
Proof.
  intros Hs. unfold writer.alphabet. zcases.
Qed.

Lemma alphabet_not_pad (s : Z) : 0 <= s < 64 -> writer.alphabet s <> 61.
Proof.
  intros Hs. unfold writer.alphabet. zcases.
Qed.

Lemma table_alphabet (s : Z) :
  0 <= s < 64 -> binascii.table_a2b_base64 (writer.alphabet s) = s.
Proof.
  intros Hs. unfold writer.alphabet, binascii.table_a2b_base64. zcases.
Qed.

(** One iteration on the character of the 6-bit value [s]. *)
Lemma step_alphabet (st : binascii.state) (s : Z) :
  0 <= s < 64 ->
  binascii.step st (byte_of_Z (writer.alphabet s)) =
    if binascii.quad_pos st =? 0 then
      binascii.Continue (binascii.State 1 s 0 (binascii.bin_data st))
    else if binascii.quad_pos st =? 1 then
      binascii.Continue
        (binascii.put st 2 (Z.lor (Z.shiftl (binascii.leftchar st) 2) (Z.shiftr s 4))
                      (Z.land s 15))
    else if binascii.quad_pos st =? 2 then
      binascii.Continue
        (binascii.put st 3 (Z.lor (Z.shiftl (binascii.leftchar st) 4) (Z.shiftr s 2))
                      (Z.land s 3))
    else
      binascii.Continue
        (binascii.put st 0 (Z.lor (Z.shiftl (binascii.leftchar st) 6) s) 0).
Proof.
  intros Hs. unfold binascii.step.
  pose proof (alphabet_range s Hs) as Hr. pose proof (alphabet_not_pad s Hs) as Hp.
  rewrite byte_to_of_Z by lia.
  destruct (Z.eqb_spec (writer.alphabet s) binascii.BASE64_PAD) as [E|_].
  { unfold binascii.BASE64_PAD in E. lia. }
  rewrite table_alphabet by assumption.
  destruct (Z.leb_spec 64 s); [lia|]. reflexivity.
Qed.

(** One iteration on a pad character. *)
Lemma step_pad (st : binascii.state) :
  binascii.step st writer.PAD =
    if 2 <=? binascii.quad_pos st then
      let st' := binascii.State (binascii.quad_pos st) (binascii.leftchar st)
                                (binascii.pads st + 1) (binascii.bin_data st) in
      if 4 <=? binascii.quad_pos st + (binascii.pads st + 1)
      then binascii.Done st' else binascii.Continue st'
    else binascii.Continue st.
Proof. reflexivity. Qed.

(** The four 6-bit values of a group of three bytes [a], [b], [c], and
    the bytes the decoder rebuilds from them. *)

Lemma s2_eq (a b : Z) : 0 <= b < 256 ->
  (Z.lor (Z.shiftl (Z.land a 3) 4) (Z.shiftr b 4)) = (a mod 4) * 16 + b / 16.
Proof.
  intros Hb. rewrite land_3, (shiftr_div b 4) by lia.
  rewrite lor_shiftl; [reflexivity | lia | ]. change (2 ^ 4) with 16. divmod.
Qed.

Lemma s3_eq (b c : Z) : 0 <= c < 256 ->
  (Z.lor (Z.shiftl (Z.land b 15) 2) (Z.shiftr c 6)) = (b mod 16) * 4 + c / 64.
Proof.
  intros Hc. rewrite land_15, (shiftr_div c 6) by lia.
  rewrite lor_shiftl; [reflexivity | lia | ]. change (2 ^ 6) with 64.
  change (2 ^ 2) with 4. divmod.
Qed.

Lemma s1_range (a : Z) : 0 <= a < 256 -> 0 <= (Z.shiftr a 2) < 64.
Proof. intros Ha. rewrite shiftr_div by lia. change (2 ^ 2) with 4. divmod. Qed.

Lemma s2_range (a b : Z) : 0 <= b < 256 -> 0 <= (Z.lor (Z.shiftl (Z.land a 3) 4) (Z.shiftr b 4)) < 64.
Proof. intros Hb. rewrite s2_eq by assumption. divmod. Qed.

Lemma s3_range (b c : Z) : 0 <= c < 256 -> 0 <= (Z.lor (Z.shiftl (Z.land b 15) 2) (Z.shiftr c 6)) < 64.
Proof. intros Hc. rewrite s3_eq by assumption. divmod. Qed.

Lemma s4_range (c : Z) : 0 <= (Z.land c 63) < 64.
Proof. rewrite land_63. divmod. Qed.

Lemma byte1_eq (a b : Z) : 0 <= a < 256 -> 0 <= b < 256 ->
  Z.lor (Z.shiftl (Z.shiftr a 2) 2) (Z.shiftr (Z.lor (Z.shiftl (Z.land a 3) 4) (Z.shiftr b 4)) 4) = a.
Proof.
  intros Ha Hb. rewrite s2_eq by assumption.
  rewrite (shiftr_div a 2), (shiftr_div _ 4) by lia.
  rewrite lor_shiftl; change (2 ^ 4) with 16; change (2 ^ 2) with 4; try lia; divmod.
Qed.

Lemma left2_eq (a b : Z) : 0 <= b < 256 ->
  Z.land (Z.lor (Z.shiftl (Z.land a 3) 4) (Z.shiftr b 4)) 15 = b / 16.
Proof. intros Hb. rewrite s2_eq by assumption. rewrite land_15. divmod. Qed.

Lemma byte2_eq (a b c : Z) : 0 <= b < 256 -> 0 <= c < 256 ->
  Z.lor (Z.shiftl (Z.land (Z.lor (Z.shiftl (Z.land a 3) 4) (Z.shiftr b 4)) 15) 4) (Z.shiftr (Z.lor (Z.shiftl (Z.land b 15) 2) (Z.shiftr c 6)) 2) = b.
Proof.
  intros Hb Hc. rewrite left2_eq, s3_eq by assumption.
  rewrite (shiftr_div _ 2) by lia.
  rewrite lor_shiftl; change (2 ^ 4) with 16; change (2 ^ 2) with 4; try lia; divmod.
Qed.

Lemma left3_eq (b c : Z) : 0 <= c < 256 ->
  Z.land (Z.lor (Z.shiftl (Z.land b 15) 2) (Z.shiftr c 6)) 3 = c / 64.
Proof. intros Hc. rewrite s3_eq by assumption. rewrite land_3. divmod. Qed.

Lemma byte3_eq (b c : Z) : 0 <= c < 256 ->
  Z.lor (Z.shiftl (Z.land (Z.lor (Z.shiftl (Z.land b 15) 2) (Z.shiftr c 6)) 3) 6) (Z.land c 63) = c.
Proof.
  intros Hc. rewrite left3_eq by assumption. rewrite land_63.
  rewrite lor_shiftl; change (2 ^ 6) with 64; try lia; divmod.
Qed.

Lemma list_ind3 {A : Type} (P : list A -> Prop) :
  P [] -> (forall a, P [a]) -> (forall a b, P [a; b]) ->
  (forall a b c l, P l -> P (a :: b :: c :: l)) ->
  forall l, P l.
Proof.
  intros H0 H1 H2 H3 l.
  enough (P l /\ (forall a, P (a :: l)) /\ (forall a b, P (a :: b :: l))) by tauto.
  induction l as [|x l (IH0 & IH1 & IH2)]; repeat split; auto.
Qed.

(** A full quantum read from position 0 writes the three bytes it encodes. *)
Lemma loop_quantum (a b c : byte) (rest : list byte) (st : binascii.state) :
  binascii.quad_pos st = 0 ->
  binascii.loop (writer.sextets3 (byte_to_Z a) (byte_to_Z b) (byte_to_Z c) ++ rest) st
  = binascii.loop rest (binascii.State 0 0 0 (binascii.bin_data st ++ [a; b; c])).
Proof.
  intros Hq.
  pose proof (byte_to_Z_range a) as Ha. pose proof (byte_to_Z_range b) as Hb.
  pose proof (byte_to_Z_range c) as Hc.
  pose proof (s1_range _ Ha) as R1. pose proof (s2_range (byte_to_Z a) _ Hb) as R2.
  pose proof (s3_range (byte_to_Z b) _ Hc) as R3. pose proof (s4_range (byte_to_Z c)) as R4.
  unfold writer.sextets3. cbn [app binascii.loop].
  rewrite step_alphabet, Hq by assumption. cbn [Z.eqb].
  rewrite step_alphabet by assumption. cbn [binascii.quad_pos binascii.leftchar Z.eqb Pos.eqb].
  rewrite byte1_eq by assumption.
  rewrite step_alphabet by assumption.
  cbn [binascii.put binascii.quad_pos binascii.leftchar binascii.bin_data Z.eqb Pos.eqb].
  rewrite byte2_eq by assumption.
  rewrite step_alphabet by assumption.
  cbn [binascii.put binascii.quad_pos binascii.leftchar binascii.bin_data Z.eqb Pos.eqb].
  rewrite byte3_eq by assumption.
  unfold binascii.put. cbn [binascii.bin_data].
  rewrite !byte_of_to_Z, <- !app_assoc. reflexivity.
Qed.

(** A final group of one byte: two characters and two pads. *)
Lemma loop_tail1 (a : byte) (st : binascii.state) :
  binascii.quad_pos st = 0 ->
  exists st', binascii.loop (writer.b64encode [a]) st = (st', true)
              /\ binascii.bin_data st' = binascii.bin_data st ++ [a].
Proof.
  intros Hq. pose proof (byte_to_Z_range a) as Ha.
  assert (H0 : 0 <= 0 < 256) by lia.
  pose proof (s1_range _ Ha) as R1. pose proof (s2_range (byte_to_Z a) _ H0) as R2.
  cbn [writer.b64encode writer.sextets3 firstn app binascii.loop].
  rewrite step_alphabet, Hq by assumption. cbn [Z.eqb].
  rewrite step_alphabet by assumption. cbn [binascii.quad_pos binascii.leftchar Z.eqb Pos.eqb].
  rewrite (byte1_eq _ _ Ha H0).
  unfold binascii.put. cbn [binascii.bin_data]. rewrite byte_of_to_Z.
  rewrite !step_pad. cbn. eexists. split; reflexivity.
Qed.

(** A final group of two bytes: three characters and one pad. *)
Lemma loop_tail2 (a b : byte) (st : binascii.state) :
  binascii.quad_pos st = 0 ->
  exists st', binascii.loop (writer.b64encode [a; b]) st = (st', true)
              /\ binascii.bin_data st' = binascii.bin_data st ++ [a; b].
Proof.
  intros Hq. pose proof (byte_to_Z_range a) as Ha. pose proof (byte_to_Z_range b) as Hb.
  assert (H0 : 0 <= 0 < 256) by lia.
  pose proof (s1_range _ Ha) as R1. pose proof (s2_range (byte_to_Z a) _ Hb) as R2.
  pose proof (s3_range (byte_to_Z b) _ H0) as R3.
  cbn [writer.b64encode writer.sextets3 firstn app binascii.loop].
  rewrite step_alphabet, Hq by assumption. cbn [Z.eqb].
  rewrite step_alphabet by assumption. cbn [binascii.quad_pos binascii.leftchar Z.eqb Pos.eqb].
  rewrite (byte1_eq _ _ Ha Hb).
  rewrite step_alphabet by assumption.
  cbn [binascii.put binascii.quad_pos binascii.leftchar binascii.bin_data Z.eqb Pos.eqb].
  rewrite (byte2_eq _ _ _ Hb H0).
  unfold binascii.put. cbn [binascii.bin_data]. rewrite !byte_of_to_Z.
  rewrite !step_pad. cbn. eexists. split; [reflexivity|].
  cbn. now rewrite <- app_assoc.
Qed.

Lemma loop_b64encode (data : list byte) :
  forall st, binascii.quad_pos st = 0 ->
  exists st' done, binascii.loop (writer.b64encode data) st = (st', done)
    /\ binascii.bin_data st' = binascii.bin_data st ++ data
    /\ (done = false -> binascii.quad_pos st' = 0).
Proof.
  induction data as [|a|a b|a b c l IH] using list_ind3; intros st Hq.
  - exists st, false. cbn. rewrite app_nil_r. auto.
  - destruct (loop_tail1 a st Hq) as (st' & E & D). exists st', true.
    repeat split; auto. discriminate.
  - destruct (loop_tail2 a b st Hq) as (st' & E & D). exists st', true.
    repeat split; auto. discriminate.
  - change (writer.b64encode (a :: b :: c :: l))
      with (writer.sextets3 (byte_to_Z a) (byte_to_Z b) (byte_to_Z c) ++ writer.b64encode l).
    rewrite loop_quantum by assumption.
    destruct (IH (binascii.State 0 0 0 (binascii.bin_data st ++ [a; b; c])) eq_refl)
      as (st' & done & E & D & Q).
    exists st', done. repeat split; auto.
    rewrite D. cbn [binascii.bin_data]. now rewrite <- app_assoc.
Qed.

(** [b64decode] inverts standard base64 encoding. *)
Lemma b64decode_b64encode (data : list byte) :
  b64decode (writer.b64encode data) = Ok data.
Proof.
  unfold b64decode, binascii.a2b_base64.
  destruct (loop_b64encode data binascii.init eq_refl) as (st' & done & E & D & Q).
  rewrite E. cbn [binascii.bin_data binascii.init app] in D. rewrite D.
  destruct done; [reflexivity|]. rewrite Q by reflexivity. reflexivity.
Qed.

(** ** Text and bytes *)

Lemma N_of_ascii_of_byte (b : byte) : N_of_ascii (ascii_of_byte b) = Byte.to_N b.
Proof.
  rewrite ascii_of_byte_via_N. apply N_ascii_embedding.
  pose proof (Byte.to_N_bounded b). lia.
Qed.

(** Text made of 7-bit bytes encodes to those bytes. *)
Lemma encode_ascii_text (l : list byte) :
  Forall (fun b => byte_to_Z b < 128) l ->
  encode_ascii (string_of_list_byte l) = Ok l.
Proof.
  induction 1 as [|b l Hb _ IH]; [reflexivity|].
  change (string_of_list_byte (b :: l))
    with (String (ascii_of_byte b) (string_of_list_byte l)).
  cbn [encode_ascii]. rewrite N_of_ascii_of_byte.
  unfold byte_to_Z in Hb.
  destruct (N.ltb_spec (Byte.to_N b) 128); [|lia].
  rewrite IH. cbn. now rewrite byte_of_ascii_of_byte.
Qed.

(** When the encoding succeeds it is the byte string of the text. *)
Lemma encode_ascii_Ok (s : string) (bs : list byte) :
  encode_ascii s = Ok bs -> bs = list_byte_of_string s.
Proof.
  revert bs. induction s as [|c s IH]; intros bs H; cbn in H.
  - now inversion H.
  - destruct (N_of_ascii c <? 128)%N; [|discriminate].
    destruct (encode_ascii s) as [bs'|e]; cbn in H; [|discriminate].
    inversion H; subst. now rewrite (IH bs' eq_refl).
Qed.

Lemma sextets3_ascii (a b c : Z) :
  0 <= a < 256 -> 0 <= b < 256 -> 0 <= c < 256 ->
  Forall (fun x => byte_to_Z x < 128) (writer.sextets3 a b c).
Proof.
  intros Ha Hb Hc. unfold writer.sextets3.
  pose proof (alphabet_range _ (s1_range _ Ha)).
  pose proof (alphabet_range _ (s2_range a _ Hb)).
  pose proof (alphabet_range _ (s3_range b _ Hc)).
  pose proof (alphabet_range _ (s4_range c)).
  repeat constructor; rewrite byte_to_of_Z; lia.
Qed.

Lemma b64encode_ascii (data : list byte) :
  Forall (fun x => byte_to_Z x < 128) (writer.b64encode data).
Proof.
  assert (H0 : 0 <= 0 < 256) by lia.
  assert (HP : byte_to_Z writer.PAD < 128) by (vm_compute; reflexivity).
  induction data as [|a|a b|a b c l IH] using list_ind3.
  - constructor.
  - cbn [writer.b64encode]. apply Forall_app. split.
    + apply Forall_take, sextets3_ascii; auto using byte_to_Z_range.
    + repeat constructor; exact HP.
  - cbn [writer.b64encode]. apply Forall_app. split.
    + apply Forall_take, sextets3_ascii; auto using byte_to_Z_range.
    + repeat constructor; exact HP.
  - change (writer.b64encode (a :: b :: c :: l))
      with (writer.sextets3 (byte_to_Z a) (byte_to_Z b) (byte_to_Z c) ++ writer.b64encode l).
    apply Forall_app. split; [|exact IH].
    apply sextets3_ascii; apply byte_to_Z_range.
Qed.

(** The text of a base64 encoding reads back as the encoded bytes. *)
Lemma read_b64text (data : list byte) :
  encode_ascii (writer.b64text data) ≫= b64decode = Ok data.
Proof.
  unfold writer.b64text. rewrite encode_ascii_text by apply b64encode_ascii.
  cbn. apply b64decode_b64encode.
Qed.

(** ** Words *)

Lemma uint_be_4 (b0 b1 b2 b3 : byte) :
  struct.uint_be [b0; b1; b2; b3]
  = ((byte_to_Z b0 * 256 + byte_to_Z b1) * 256 + byte_to_Z b2) * 256 + byte_to_Z b3.
Proof. reflexivity. Qed.

Lemma uint_be_4_range (b0 b1 b2 b3 : byte) :
  writer.is_uint32 (struct.uint_be [b0; b1; b2; b3]).
Proof.
  rewrite uint_be_4. unfold writer.is_uint32. change (2 ^ 32) with 4294967296.
  pose proof (byte_to_Z_range b0). pose proof (byte_to_Z_range b1).
  pose proof (byte_to_Z_range b2). pose proof (byte_to_Z_range b3). lia.
Qed.

(** The four bytes of a 32-bit pattern, most significant first, hold it. *)
Lemma uint_be_bytes (d : Z) :
  writer.is_uint32 d ->
  struct.uint_be [byte_of_Z (Z.shiftr d 24); byte_of_Z (Z.shiftr d 16);
                  byte_of_Z (Z.shiftr d 8); byte_of_Z d] = d.
Proof.
  unfold writer.is_uint32. change (2 ^ 32) with 4294967296. intros Hd.
  rewrite uint_be_4, !byte_to_of_Z_mod, !shiftr_div by lia.
  change (2 ^ 24) with 16777216. change (2 ^ 16) with 65536. change (2 ^ 8) with 256.
  divmod.
Qed.

Lemma words_be_range (data : list byte) : Forall writer.is_uint32 (struct.words_be data).
Proof.
  remember (length data) as n eqn:E. revert data E.
  induction n as [n IH] using lt_wf_ind.
  intros [|b0 [|b1 [|b2 [|b3 rest]]]] E; try constructor.
  - apply uint_be_4_range.
  - eapply IH; [|reflexivity]. cbn in E. lia.
Qed.

Lemma words_be_pack (ws : list Z) :
  Forall writer.is_uint32 ws -> struct.words_be (writer.pack_BE_L ws) = ws.
Proof.
  induction 1 as [|d ws Hd _ IH]; [reflexivity|].
  cbn [writer.pack_BE_L flat_map app struct.words_be].
  rewrite uint_be_bytes by assumption. f_equal. exact IH.
Qed.

Lemma length_pack (ws : list Z) :
  Z.of_nat (length (writer.pack_BE_L ws)) = 4 * Z.of_nat (length ws).
Proof.
  induction ws as [|d ws IH]; [reflexivity|].
  cbn [writer.pack_BE_L flat_map app length]. unfold writer.pack_BE_L in IH. lia.
Qed.

(** ** The bit-cast of line 39 *)

(** Packing as a native [unsigned int] and unpacking as a native
    [float] yields the float with the same bit pattern, whatever the
    byte order of the machine. *)
Lemma bitcast_spec (native : struct.byteorder) (d : Z) :
  writer.is_uint32 d -> bitcast native d = Ok (ieee754.float_of_bits32 d).
Proof.
  intros Hd. unfold bitcast, struct.pack_I.
  pose proof Hd as [Hd0 Hd1].
  destruct (Z.leb_spec 0 d); [|lia]. destruct (Z.ltb_spec d (2 ^ 32)); [|lia].
  cbn [andb]. destruct native; cbn.
  - unfold struct.unpack_f. cbn [length rev app Z.of_nat Z.eqb Pos.eqb Pos.of_succ_nat Pos.succ].
    cbn [struct.uint_native rev app]. rewrite uint_be_bytes by assumption. reflexivity.
  - unfold struct.unpack_f. cbn [length Z.of_nat Z.eqb Pos.eqb Pos.of_succ_nat Pos.succ].
    cbn [struct.uint_native]. rewrite uint_be_bytes by assumption. reflexivity.
Qed.

(** ** The loop of lines 35-44 *)

Lemma split_loop_spec (native : struct.byteorder) (unpacked : list Z) :
  Forall writer.is_uint32 unpacked ->
  forall i mzs intensities,
  split_loop native unpacked i mzs intensities
  = Ok (mzs ++ map ieee754.float_of_bits32 (writer.alternate (i mod 2 =? 0) unpacked),
        intensities ++ map ieee754.float_of_bits32
                             (writer.alternate (negb (i mod 2 =? 0)) unpacked)).
Proof.
  induction 1 as [|d ws Hd _ IH]; intros i mzs its.
  - cbn. now rewrite !app_nil_r.
  - cbn [split_loop]. rewrite bitcast_spec by assumption. cbn [mbind result_mbind result_bind].
    assert (Hn : ((i + 1) mod 2 =? 0) = negb (i mod 2 =? 0)).
    { destruct (Z.eqb_spec (i mod 2) 0), (Z.eqb_spec ((i + 1) mod 2) 0);
        cbn; try reflexivity; divmod. }
    destruct (i mod 2 =? 0) eqn:E; rewrite IH, Hn; cbn [negb writer.alternate map];
      now rewrite <- app_assoc.
Qed.

(** ** The buffer decoder, case by case *)

Lemma item_precision_32 (info : gmap string value) (is32 : bool) :
  item_eq_str info "precision" "32" = Ok is32 ->
  (is32 = true <-> info !! "precision" = Some (VStr "32")).
Proof.
  unfold item_eq_str. destruct (info !! "precision") as [[]|]; intros H;
    inversion H; subst; split; try discriminate; try congruence.
  - intros E. apply String.eqb_eq in E. now subst.
  - intros E. inversion E. apply String.eqb_refl.
Qed.

(** With 32-bit precision a buffer of whole words decodes to the floats
    of its words, split by position. *)
Lemma decode_buffer_32 (native : struct.byteorder) (info : gmap string value)
      (data : list byte) :
  info !! "precision" = Some (VStr "32") ->
  Z.of_nat (length data) mod 4 = 0 ->
  decode_buffer native info data
  = Ok (map ieee754.float_of_bits32 (writer.evens (struct.words_be data)),
        map ieee754.float_of_bits32 (writer.odds (struct.words_be data))).
Proof.
  intros Hp Hl. unfold decode_buffer, item_eq_str. rewrite Hp.
  cbn [mbind result_mbind result_bind String.eqb Ascii.eqb Bool.eqb].
  change (String.eqb "32" "32") with true. cbv iota.
  unfold struct.unpack_BE_L.
  destruct (Z.eqb_spec (Z.of_nat (length data)) (4 * (Z.of_nat (length data) / 4)));
    [|divmod].
  cbn [mbind result_mbind result_bind].
  rewrite split_loop_spec by apply words_be_range. reflexivity.
Qed.

(** A buffer whose length is not a multiple of the element width is
    refused by [struct.unpack]. *)
Lemma decode_buffer_ragged (native : struct.byteorder) (info : gmap string value)
      (data : list byte) (is32 : bool) :
  item_eq_str info "precision" "32" = Ok is32 ->
  Z.of_nat (length data) mod (if is32 then 4 else 8) <> 0 ->
  decode_buffer native info data = Raise struct_error.
Proof.
  intros Hp Hl. unfold decode_buffer. rewrite Hp.
  cbn [mbind result_mbind result_bind]. unfold struct.unpack_BE_L.
  destruct is32;
    match goal with |- context [?x =? ?y] => destruct (Z.eqb_spec x y) end;
    try reflexivity; divmod.
Qed.

(** With any precision other than ["32"] every non-empty buffer is
    refused: the format asks for [len / 8] words of 4 bytes. *)
Lemma decode_buffer_not32 (native : struct.byteorder) (info : gmap string value)
      (data : list byte) :
  item_eq_str info "precision" "32" = Ok false ->
  data <> [] ->
  decode_buffer native info data = Raise struct_error.
Proof.
  intros Hp Hd. unfold decode_buffer. rewrite Hp.
  cbn [mbind result_mbind result_bind]. unfold struct.unpack_BE_L.
  assert (0 < Z.of_nat (length data)) by (destruct data; [congruence | cbn; lia]).
  match goal with |- context [?x =? ?y] => destruct (Z.eqb_spec x y) end;
    [divmod | reflexivity].
Qed.

(** ** Base64: what the lenient decoder accepts and refuses *)

Lemma is_alphabet_not_pad (c : byte) : writer.is_alphabet c = true -> writer.is_pad c = false.
Proof. unfold writer.is_alphabet. destruct (writer.is_pad c); [discriminate | reflexivity]. Qed.

(** A byte that is neither a pad nor in the alphabet leaves the state alone. *)
Lemma step_junk (st : binascii.state) (c : byte) :
  writer.is_pad c = false -> writer.is_alphabet c = false ->
  binascii.step st c = binascii.Continue st.
Proof.
  unfold writer.is_alphabet, writer.is_pad, binascii.step. intros -> H.
  cbn [negb andb] in H. apply Z.ltb_ge in H.
  destruct (Z.leb_spec 64 (binascii.table_a2b_base64 (byte_to_Z c))); [reflexivity | lia].
Qed.

(** An alphabet character moves to the next position of the quantum. *)
Lemma step_alphabet_char (st : binascii.state) (c : byte) :
  writer.is_alphabet c = true -> 0 <= binascii.quad_pos st < 4 ->
  exists st', binascii.step st c = binascii.Continue st'
    /\ binascii.quad_pos st' = (binascii.quad_pos st + 1) mod 4
    /\ binascii.pads st' = 0.
Proof.
  intros Ha Hq. pose proof (is_alphabet_not_pad c Ha) as Hp.
  unfold writer.is_alphabet in Ha. rewrite Hp in Ha. cbn [negb andb] in Ha.
  apply Z.ltb_lt in Ha. unfold writer.is_pad in Hp. unfold binascii.step. rewrite Hp.
  destruct (Z.leb_spec 64 (binascii.table_a2b_base64 (byte_to_Z c))); [lia|].
  destruct (Z.eqb_spec (binascii.quad_pos st) 0) as [E|];
    [|destruct (Z.eqb_spec (binascii.quad_pos st) 1) as [E|];
      [|destruct (Z.eqb_spec (binascii.quad_pos st) 2) as [E|]]];
    eexists; (split; [reflexivity|]); cbn; split; try reflexivity; try rewrite E;
    try reflexivity.
  assert (E : binascii.quad_pos st = 3) by lia. now rewrite E.
Qed.

(** Bytes outside the alphabet are dropped: the loop behaves as on the
    text without them. *)
Lemma loop_filter (s : list byte) :
  forall st,
  binascii.loop (filter (fun c => writer.is_pad c || writer.is_alphabet c = true) s) st
  = binascii.loop s st.
Proof.
  induction s as [|c s IH]; intros st; [reflexivity|].
  rewrite filter_cons. destruct (writer.is_pad c) eqn:Hp; cbn [orb].
  - rewrite decide_True by reflexivity. cbn [binascii.loop].
    destruct (binascii.step st c); [apply IH | reflexivity].
  - destruct (writer.is_alphabet c) eqn:Ha.
    + rewrite decide_True by reflexivity. cbn [binascii.loop].
      destruct (binascii.step st c); [apply IH | reflexivity].
    + rewrite decide_False by discriminate. cbn [binascii.loop].
      rewrite step_junk by assumption. apply IH.
Qed.

Lemma loop_app (s t : list byte) :
  forall st,
  binascii.loop (s ++ t) st
  = match binascii.loop s st with
    | (st', true) => (st', true)
    | (st', false) => binascii.loop t st'
    end.
Proof.
  induction s as [|c s IH]; intros st; [reflexivity|].
  cbn [app binascii.loop]. destruct (binascii.step st c); [apply IH | reflexivity].
Qed.

(** A text without pad characters never leaves through [done]; it ends
    at the position given by its number of alphabet characters. *)
Lemma loop_no_pad (body : list byte) :
  Forall (fun c => writer.is_pad c = false) body ->
  forall st, 0 <= binascii.quad_pos st < 4 -> binascii.pads st = 0 ->
  exists st', binascii.loop body st = (st', false)
    /\ binascii.quad_pos st' = (binascii.quad_pos st + writer.count_alphabet body) mod 4
    /\ binascii.pads st' = 0.
Proof.
  induction 1 as [|c body Hc _ IH]; intros st Hq Hp.
  - exists st. cbn. rewrite Z.add_0_r, Z.mod_small by lia. auto.
  - cbn [binascii.loop]. unfold writer.count_alphabet. rewrite filter_cons.
    destruct (writer.is_alphabet c) eqn:Ha.
    + rewrite decide_True by reflexivity.
      destruct (step_alphabet_char st c Ha Hq) as (st1 & E & Q & P). rewrite E.
      destruct (IH st1) as (st' & E' & Q' & P'); [rewrite Q; divmod | assumption |].
      exists st'. split; [assumption|]. split; [|assumption].
      rewrite Q', Q. unfold writer.count_alphabet. cbn [length].
      rewrite Nat2Z.inj_succ. rewrite Zplus_mod_idemp_l. f_equal. lia.
    + rewrite decide_False by discriminate. rewrite step_junk by assumption.
      apply IH; assumption.
Qed.

(** After the last alphabet character only the pad characters count:
    from position 2 or 3 the loop leaves through [done] as soon as the
    pads complete the group, and below position 2 they are ignored. *)
Lemma loop_only_pads (tail : list byte) :
  Forall (fun c => writer.is_alphabet c = false) tail ->
  forall st, 0 <= binascii.pads st -> binascii.quad_pos st + binascii.pads st < 4 ->
  exists st' done, binascii.loop tail st = (st', done)
    /\ binascii.quad_pos st' = binascii.quad_pos st
    /\ (done = true <->
        2 <= binascii.quad_pos st
        /\ 4 <= binascii.quad_pos st + binascii.pads st + writer.count_pad tail).
Proof.
  induction 1 as [|c tail Hc _ IH]; intros st Hp Hinv.
  - exists st, false. unfold writer.count_pad. cbn.
    repeat split; try discriminate. lia.
  - cbn [binascii.loop]. unfold writer.count_pad. rewrite filter_cons.
    destruct (writer.is_pad c) eqn:Hpad.
    + rewrite decide_True by reflexivity. cbn [length]. rewrite Nat2Z.inj_succ.
      unfold binascii.step. unfold writer.is_pad in Hpad. rewrite Hpad.
      destruct (Z.leb_spec 2 (binascii.quad_pos st)).
      * cbv zeta.
        destruct (Z.leb_spec 4 (binascii.quad_pos st + (binascii.pads st + 1))).
        -- eexists _, true. split; [reflexivity|]. cbn. split; [reflexivity|].
           split; [intros _|reflexivity]. lia.
        -- match goal with |- context [binascii.loop tail ?s] =>
             destruct (IH s) as (st' & done & E & Q & D) end; cbn; try lia.
           exists st', done. split; [assumption|]. split; [assumption|].
           rewrite D. cbn. unfold writer.count_pad. lia.
      * destruct (IH st) as (st' & done & E & Q & D); try lia.
        exists st', done. split; [assumption|]. split; [assumption|].
        rewrite D. lia.
    + rewrite decide_False by discriminate. rewrite step_junk by assumption.
      apply IH; assumption.
Qed.

(** When pad characters occur only after the last alphabet character,
    the decoder fails exactly when they do not complete the last group. *)
Lemma a2b_base64_padding (body tail : list byte) :
  Forall (fun c => writer.is_pad c = false) body ->
  Forall (fun c => writer.is_alphabet c = false) tail ->
  (binascii.a2b_base64 (body ++ tail) = Raise binascii_Error
   <-> writer.bad_padding (writer.count_alphabet body) (writer.count_pad tail)).
Proof.
  intros Hb Ht. unfold binascii.a2b_base64. rewrite loop_app.
  destruct (loop_no_pad body Hb binascii.init) as (st1 & E1 & Q1 & P1);
    [cbn; lia | reflexivity |].
  rewrite E1. cbn [binascii.quad_pos binascii.init] in Q1. rewrite Z.add_0_l in Q1.
  assert (R : 0 <= binascii.quad_pos st1 < 4) by (rewrite Q1; divmod).
  destruct (loop_only_pads tail Ht st1) as (st2 & done & E2 & Q2 & D); try lia.
  rewrite E2. rewrite P1, Z.add_0_r in D. unfold writer.bad_padding. rewrite <- Q1.
  destruct done.
  - split; [discriminate|]. destruct D as [D _]. specialize (D eq_refl). lia.
  - rewrite Q2. destruct (Z.eqb_spec (binascii.quad_pos st1) 0) as [Z0|NZ].
    + split; [discriminate | lia].
    + split; [intros _ | reflexivity].
      destruct D as [_ D].
      assert (~ (2 <= binascii.quad_pos st1
                 /\ 4 <= binascii.quad_pos st1 + writer.count_pad tail))
        by (intros C; specialize (D C); discriminate).
      lia.
Qed.

(** ** The peak decoder *)

Lemma get_eq_str_true (info : gmap string value) (k s : string) :
  get_eq_str info k s = true <-> info !! k = Some (VStr s).
Proof.
  unfold get_eq_str. destruct (info !! k) as [[]|]; split; try discriminate.
  - intros E. apply String.eqb_eq in E. now subst.
  - intros E. inversion E. apply String.eqb_refl.
Qed.

Lemma get_eq_str_false (info : gmap string value) (k s : string) :
  get_eq_str info k s = false <-> info !! k <> Some (VStr s).
Proof.
  rewrite <- get_eq_str_true. destruct (get_eq_str info k s); split; congruence.
Qed.

(** The decoder reads the record only through its [precision] entry. *)
Lemma decode_buffer_precision (native : struct.byteorder)
      (info1 info2 : gmap string value) (data : list byte) :
  info1 !! "precision" = info2 !! "precision" ->
  decode_buffer native info1 data = decode_buffer native info2 data.
Proof. intros H. unfold decode_buffer, item_eq_str. now rewrite H. Qed.

Lemma split_loop_native (n1 n2 : struct.byteorder) (unpacked : list Z) :
  Forall writer.is_uint32 unpacked ->
  forall i mzs its, split_loop n1 unpacked i mzs its = split_loop n2 unpacked i mzs its.
Proof. intros H i mzs its. now rewrite !split_loop_spec. Qed.

Section DecoderFacts.

Variable zlib_decompress : list byte -> result (list byte).
Variable native : struct.byteorder.

(** The raw buffer of a base64 text is the encoded payload, inflated
    when the record says [zlib]. *)
Lemma raw_buffer_b64text (info : gmap string value) (payload : list byte) :
  raw_buffer zlib_decompress info (writer.b64text payload)
  = if get_eq_str info "compressionType" "zlib"
    then zlib_decompress payload else Ok payload.
Proof.
  unfold raw_buffer.
  pose proof (read_b64text payload) as H.
  destruct (encode_ascii (writer.b64text payload)) as [content|e]; [|discriminate].
  cbn in H |- *. rewrite H. reflexivity.
Qed.

Lemma decode_peaks_raw (info : gmap string value) (text : string) (data : list byte) :
  raw_buffer zlib_decompress info text = Ok data ->
  _decode_peaks zlib_decompress native info text = decode_buffer native info data.
Proof. intros H. unfold _decode_peaks. now rewrite H. Qed.

Lemma decode_peaks_raw_error (info : gmap string value) (text : string) (e : exn) :
  raw_buffer zlib_decompress info text = Raise e ->
  _decode_peaks zlib_decompress native info text = Raise e.
Proof. intros H. unfold _decode_peaks. now rewrite H. Qed.

Lemma raw_buffer_b64_error (info : gmap string value) (text : string)
      (content : list byte) :
  encode_ascii text = Ok content ->
  b64decode content = Raise binascii_Error ->
  raw_buffer zlib_decompress info text = Raise binascii_Error.
Proof. intros H1 H2. unfold raw_buffer. rewrite H1. cbn. now rewrite H2. Qed.

End DecoderFacts.

(** ** Record post-processing *)

Lemma alias_id_other (info : gmap string value) (k : string) :
  k <> "id" -> MzXML.alias_id info !! k = info !! k.
Proof.
  intros Hk. unfold MzXML.alias_id. destruct (info !! "num"); [|reflexivity].
  now rewrite lookup_insert_ne.
Qed.


Lemma alias_id_no_num (info : gmap string value) :
  info !! "num" = None -> MzXML.alias_id info = info.
Proof. intros H. unfold MzXML.alias_id. now rewrite H. Qed.

(** The handler of line 122 never completes. *)
Lemma on_KeyError_raises (info : gmap string value) :
  MzXML.on_KeyError info = Raise TypeError.
Proof. reflexivity. Qed.

Lemma retention_time_other (info info' : gmap string value) (k : string) :
  k <> "retentionTime" ->
  MzXML.retention_time info = Ok info' -> info' !! k = info !! k.
Proof.
  intros Hk. unfold MzXML.retention_time.
  destruct (info !! "retentionTime") as [[]|]; try discriminate.
  - destruct (py_float _); cbn; [|discriminate].
    intros H. inversion H. now rewrite lookup_insert_ne.
  - intros H. now inversion H.
Qed.

Section AssemblerFacts.

Variable zlib_decompress : list byte -> result (list byte).
Variable native : struct.byteorder.

Abbreviation merge_peaks := (MzXML.merge_peaks zlib_decompress native).
Abbreviation post_process := (MzXML.post_process zlib_decompress native).


(** Raw text: the entry is replaced by the two decoded arrays. *)
Lemma merge_peaks_text (info : gmap string value) (text : string) :
  info !! "peaks" = Some (VStr text) ->
  merge_peaks info
  = '(mz, it) ← _decode_peaks zlib_decompress native (delete "peaks" info) text;
    Ok (<["intensity array" := VArray it]>
          (<["m/z array" := VArray mz]> (delete "peaks" info))).
Proof. intros H. unfold MzXML.merge_peaks. now rewrite H. Qed.

(** A child record that holds both arrays: they are copied up. *)
Lemma merge_peaks_child (info child : gmap string value) (rest : list value)
      (mz it : value) :
  info !! "peaks" = Some (VList (VDict child :: rest)) ->
  child !! "m/z array" = Some mz -> child !! "intensity array" = Some it ->
  merge_peaks info
  = Ok (<["intensity array" := it]> (<["m/z array" := mz]> (delete "peaks" info))).
Proof.
  intros H Hmz Hit. unfold MzXML.merge_peaks. rewrite H. cbn.
  unfold MzXML.try_copy. cbn. now rewrite Hmz, Hit.
Qed.

(** A child record that lacks one of the arrays: [np.array()] raises. *)
Lemma merge_peaks_child_missing (info child : gmap string value) (rest : list value) :
  info !! "peaks" = Some (VList (VDict child :: rest)) ->
  child !! "m/z array" = None \/ child !! "intensity array" = None ->
  merge_peaks info = Raise TypeError.
Proof.
  intros H Hmiss. unfold MzXML.merge_peaks. rewrite H. cbn.
  unfold MzXML.try_copy. cbn.
  destruct (child !! "m/z array") as [mz|] eqn:Emz; [|reflexivity].
  destruct Hmiss as [|Hit]; [discriminate|]. now rewrite Hit.
Qed.

(** Whatever [merge_peaks] returns, it touched only the three peak keys. *)
Lemma merge_peaks_other (info info' : gmap string value) (k : string) :
  k <> "peaks" -> k <> "m/z array" -> k <> "intensity array" ->
  merge_peaks info = Ok info' -> info' !! k = info !! k.
Proof.
  intros K1 K2 K3. unfold MzXML.merge_peaks.
  destruct (info !! "peaks") as [peaks|] eqn:Ep; [|intros H; now inversion H].
  destruct peaks as [ |text| | | | |d|l]; try discriminate.
  - destruct (_decode_peaks _ _ _ _) as [[mz it]|]; cbn; [|discriminate].
    intros H. inversion H.
    now rewrite !lookup_insert_ne, lookup_delete_ne by congruence.
  - destruct l as [|x l]; [discriminate|]. cbn.
    unfold MzXML.try_copy.
    destruct (MzXML.getitem x "m/z array") as [mz|e] eqn:Emz.
    + destruct (MzXML.getitem x "intensity array") as [it|e] eqn:Eit.
      * intros H. inversion H.
        now rewrite !lookup_insert_ne, lookup_delete_ne by congruence.
      * destruct e; discriminate.
    + destruct e; discriminate.
Qed.

Lemma post_process_eq (info : gmap string value) :
  post_process info = merge_peaks (MzXML.alias_id info) ≫= MzXML.retention_time.
Proof. reflexivity. Qed.

(** Every key outside the five that post-processing writes keeps its value. *)
Lemma post_process_other (info info' : gmap string value) (k : string) :
  k <> "id" -> k <> "peaks" -> k <> "m/z array" -> k <> "intensity array" ->
  k <> "retentionTime" ->
  post_process info = Ok info' -> info' !! k = info !! k.
Proof.
  intros K1 K2 K3 K4 K5. rewrite post_process_eq.
  destruct (merge_peaks (MzXML.alias_id info)) as [info1|] eqn:E; cbn; [|discriminate].
  intros H. rewrite (retention_time_other _ _ _ K5 H).
  rewrite (merge_peaks_other _ _ _ K2 K3 K4 E). now apply alias_id_other.
Qed.

Variable element : Type.
Variable kwargs : Type.
Variable _local_name : element -> string.
Variable _get_info : element -> bool -> kwargs -> result (gmap string value).

Abbreviation _get_info_smart :=
  (MzXML._get_info_smart zlib_decompress native element kwargs _local_name _get_info).

(** [_get_info_smart] asks [_get_info] once, with the effective
    [recursive] flag, and post-processes what it returns. *)
Lemma get_info_smart_eq (elt : element) (rec : option bool) (kw : kwargs) :
  _get_info_smart elt rec kw
  = _get_info elt (MzXML.effective_recursive (_local_name elt) rec) kw ≫= post_process.
Proof.
  unfold MzXML._get_info_smart, MzXML.effective_recursive.
  destruct (String.eqb (_local_name elt) "mzXML"), rec; reflexivity.
Qed.

End AssemblerFacts.

(** ** [float] accepts no text that starts or ends with a marker *)

Lemma clean_ends_wrap (pre s post : list Z) :
  Forall (fun c => ~ writer.marker c) pre ->
  Forall (fun c => ~ writer.marker c) post ->
  writer.clean_ends s -> writer.clean_ends (pre ++ s ++ post).
Proof.
  intros Hpre Hpost (a & b & Ha & Hb & Ma & Mb).
  destruct s as [|a' s]; [discriminate|]. cbn in Ha. inversion Ha; subst a'.
  assert (H1 : exists x, head (pre ++ (a :: s) ++ post) = Some x /\ ~ writer.marker x).
  { destruct pre as [|p pre]; cbn; [eauto|].
    inversion Hpre; subst. eauto. }
  assert (H2 : exists y, last (pre ++ (a :: s) ++ post) = Some y /\ ~ writer.marker y).
  { rewrite app_assoc, last_app.
    destruct (last post) as [y|] eqn:Ey.
    - exists y. split; [reflexivity|].
      apply last_Some in Ey as [l' ->]. apply Forall_app in Hpost as [_ Hy].
      now inversion Hy.
    - rewrite last_app, Hb. eauto. }
  destruct H1 as (x & Hx & Mx), H2 as (y & Hy & My). exists x, y. auto.
Qed.

Lemma clean_ends_Forall (l : list Z) :
  l <> [] -> Forall (fun c => ~ writer.marker c) l -> writer.clean_ends l.
Proof.
  intros Hne Hl. destruct l as [|a l]; [congruence|].
  destruct (last (a :: l)) as [b|] eqn:Eb.
  - exists a, b. repeat split; auto.
    + now inversion Hl.
    + apply last_Some in Eb as [l' E]. rewrite E in Hl.
      apply Forall_app in Hl as [_ Hb]. now inversion Hb.
  - apply last_None in Eb. discriminate.
Qed.

Lemma space_not_marker (c : Z) : pyfloat_parse.is_space c = true -> ~ writer.marker c.
Proof.
  unfold pyfloat_parse.is_space, writer.marker. intros H M.
  destruct M as [-> | [-> | ->]]; discriminate.
Qed.

Lemma lstrip_space_split (l : list Z) :
  exists pre, l = pre ++ pyfloat_parse.lstrip_space l
              /\ Forall (fun c => pyfloat_parse.is_space c = true) pre.
Proof.
  induction l as [|c l (pre & E & F)]; [exists []; auto|].
  cbn. destruct (pyfloat_parse.is_space c) eqn:Ec.
  - exists (c :: pre). split; [cbn; congruence | now constructor].
  - exists []. auto.
Qed.

Lemma strip_space_split (l : list Z) :
  exists pre post, l = pre ++ pyfloat_parse.strip_space l ++ post
    /\ Forall (fun c => pyfloat_parse.is_space c = true) pre
    /\ Forall (fun c => pyfloat_parse.is_space c = true) post.
Proof.
  unfold pyfloat_parse.strip_space.
  destruct (lstrip_space_split l) as (pre & E & F).
  destruct (lstrip_space_split (rev (pyfloat_parse.lstrip_space l))) as (q & E' & F').
  exists pre, (rev q). split; [|split; [assumption | now apply Forall_rev]].
  rewrite <- rev_app_distr, <- E', rev_involutive. exact E.
Qed.

Lemma drop_underscores_nil (s : list Z) :
  forall prev, pyfloat_parse.drop_underscores prev s = Some [] -> s = [].
Proof.
  induction s as [|c s IH]; intros prev H; [reflexivity|]. exfalso.
  cbn in H. destruct (c =? 95) eqn:Ec.
  - destruct (pyfloat_parse.is_digit prev); [|discriminate].
    pose proof (IH _ H) as ->. cbn in H. rewrite Ec in H. discriminate.
  - destruct ((prev =? 95) && negb (pyfloat_parse.is_digit c)); [discriminate|].
    destruct (pyfloat_parse.drop_underscores c s); discriminate.
Qed.

Lemma drop_underscores_last (s : list Z) :
  forall prev s', pyfloat_parse.drop_underscores prev s = Some s' -> last s' = last s.
Proof.
  induction s as [|c s IH]; intros prev s' H; cbn in H.
  - destruct (prev =? 95); inversion H. reflexivity.
  - destruct (c =? 95) eqn:Ec.
    + destruct (pyfloat_parse.is_digit prev); [|discriminate].
      rewrite (IH _ _ H). destruct s as [|d s]; [|reflexivity].
      cbn in H. rewrite Ec in H. discriminate.
    + destruct ((prev =? 95) && negb (pyfloat_parse.is_digit c)); [discriminate|].
      destruct (pyfloat_parse.drop_underscores c s) as [r|] eqn:Er; [|discriminate].
      cbn in H. inversion H; subst s'. rewrite !last_cons, (IH _ _ Er). reflexivity.
Qed.

Lemma drop_underscores_head (s s' : list Z) (prev : Z) :
  pyfloat_parse.is_digit prev = false ->
  pyfloat_parse.drop_underscores prev s = Some s' -> head s' = head s.
Proof.
  intros Hp H. destruct s as [|c s]; cbn in H.
  - destruct (prev =? 95); inversion H. reflexivity.
  - rewrite Hp in H. destruct (c =? 95); [discriminate|].
    destruct ((prev =? 95) && negb (pyfloat_parse.is_digit c)); [discriminate|].
    destruct (pyfloat_parse.drop_underscores c s); [|discriminate].
    cbn in H. inversion H. reflexivity.
Qed.

Lemma sign_of_split (s body : list Z) (neg : bool) :
  pyfloat_parse.sign_of s = (neg, body) -> s = body \/ s = 45 :: body \/ s = 43 :: body.
Proof.
  unfold pyfloat_parse.sign_of.
  destruct s as [|c s]; [intros H; inversion H; auto|].
  destruct (Z.eq_dec c 45) as [->|N1]; [intros H; inversion H; auto|].
  destruct (Z.eq_dec c 43) as [->|N2]; [intros H; inversion H; auto|].
  intros H. left.
  destruct c as [|[p|p|]|]; try (inversion H; reflexivity);
    repeat (destruct p as [p|p|]; try (inversion H; reflexivity); try congruence).
Qed.

Lemma numchar_not_marker (c : Z) : pyfloat_parse.numchar c -> ~ writer.marker c.
Proof.
  unfold pyfloat_parse.numchar, writer.marker, pyfloat_parse.is_digit, pyfloat_parse.lower.
  intros H M. destruct M as [-> | [-> | ->]]; cbn in H; intuition discriminate.
Qed.

Lemma digits_split (s : list Z) :
  forall acc n v n' rest,
  pyfloat_parse.digits s acc n = (v, n', rest) ->
  exists pre, s = pre ++ rest
    /\ Forall (fun c => pyfloat_parse.is_digit c = true) pre
    /\ n' = n + Z.of_nat (length pre).
Proof.
  induction s as [|c s IH]; intros acc n v n' rest H; cbn in H.
  - inversion H; subst. exists []. cbn. split; [reflexivity|]. split; [constructor | lia].
  - destruct (pyfloat_parse.is_digit c) eqn:Ec.
    + destruct (IH _ _ _ _ _ H) as (pre & E & F & L). exists (c :: pre).
      split; [cbn; congruence|]. split; [now constructor | cbn [length]; lia].
    + inversion H; subst. exists []. cbn. split; [reflexivity|].
      split; [constructor | lia].
Qed.

Lemma digit_numchar (l : list Z) :
  Forall (fun c => pyfloat_parse.is_digit c = true) l -> Forall pyfloat_parse.numchar l.
Proof. intros H. eapply Forall_impl; [exact H|]. intros c Hc. now left. Qed.

Lemma exponent_split (s rest : list Z) (ev : Z) :
  pyfloat_parse.exponent s = (ev, rest) ->
  exists pre, s = pre ++ rest /\ Forall pyfloat_parse.numchar pre.
Proof.
  unfold pyfloat_parse.exponent. destruct s as [|c s].
  { intros H. inversion H. exists []. auto. }
  destruct (pyfloat_parse.lower c =? 101) eqn:Ec.
  - destruct (pyfloat_parse.sign_of s) as [eneg r1] eqn:Es.
    destruct (pyfloat_parse.digits r1 0 0) as [[v n] r2] eqn:Ed.
    destruct (n =? 0).
    + intros H. inversion H. exists []. auto.
    + intros H. inversion H; subst.
      destruct (digits_split _ _ _ _ _ _ Ed) as (pre & E & F & _).
      apply digit_numchar in F. apply Z.eqb_eq in Ec.
      assert (Hc : pyfloat_parse.numchar c) by (right; right; now left).
      destruct (sign_of_split _ _ _ Es) as [-> | [-> | ->]]; subst r1.
      * exists (c :: pre). split; [reflexivity | now constructor].
      * exists (c :: 45 :: pre). split; [reflexivity|].
        constructor; [assumption|]. constructor; [|assumption].
        right; right; right; now right.
      * exists (c :: 43 :: pre). split; [reflexivity|].
        constructor; [assumption|]. constructor; [|assumption].
        right; right; right; now left.
  - intros H. inversion H. exists []. auto.
Qed.

(** A text read as a decimal number is not empty and made of digits,
    a point, an exponent letter and signs only. *)
Lemma number_chars (neg : bool) (body : list Z) (f : pyfloat) :
  pyfloat_parse.number neg body = Ok f ->
  body <> [] /\ Forall pyfloat_parse.numchar body.
Proof.
  unfold pyfloat_parse.number.
  destruct (pyfloat_parse.digits body 0 0) as [[iv inum] s1] eqn:E1.
  destruct (digits_split _ _ _ _ _ _ E1) as (pre1 & B1 & F1 & L1).
  apply digit_numchar in F1.
  assert (Hfrac : forall v fnum s2,
            (match s1 with
             | 46 :: r => let '(v, n, r') := pyfloat_parse.digits r iv 0 in (v, n, r')
             | _ => (iv, 0, s1)
             end) = (v, fnum, s2) ->
            exists pre2, s1 = pre2 ++ s2 /\ Forall pyfloat_parse.numchar pre2
                         /\ (fnum <> 0 -> pre2 <> []) /\ 0 <= fnum).
  { intros v fnum s2 H.
    assert (D : (exists r, s1 = 46 :: r) \/
                (match s1 with
                 | 46 :: r => let '(v, n, r') := pyfloat_parse.digits r iv 0 in (v, n, r')
                 | _ => (iv, 0, s1)
                 end) = (iv, 0, s1)).
    { destruct s1 as [|c r]; [now right|].
      destruct (Z.eq_dec c 46) as [->|N]; [left; eauto|]. right.
      destruct c as [|[p|p|]|]; try reflexivity;
        repeat (destruct p as [p|p|]; try reflexivity; try congruence). }
    destruct D as [[r ->] | D].
    - destruct (pyfloat_parse.digits r iv 0) as [[v' n'] r'] eqn:E2.
      inversion H; subst.
      destruct (digits_split _ _ _ _ _ _ E2) as (pre2 & B2 & F2 & L2).
      exists (46 :: pre2). split; [cbn; congruence|].
      split; [constructor; [right; now left | now apply digit_numchar]|].
      split; [discriminate | lia].
    - rewrite D in H. inversion H; subst. exists []. repeat split; auto; lia. }
  destruct (match s1 with
            | 46 :: r => let '(v, n, r') := pyfloat_parse.digits r iv 0 in (v, n, r')
            | _ => (iv, 0, s1)
            end) as [[v fnum] s2] eqn:E2.
  destruct (Hfrac _ _ _ eq_refl) as (pre2 & B2 & F2 & N2 & P2).
  destruct (Z.eqb_spec (inum + fnum) 0) as [|Hn]; [discriminate|].
  destruct (pyfloat_parse.exponent s2) as [ev s3] eqn:E3.
  destruct (exponent_split _ _ _ E3) as (pre3 & B3 & F3).
  destruct s3; [|discriminate]. intros _.
  subst body s1 s2. rewrite app_nil_r. split.
  - destruct pre1; [|discriminate]. cbn in L1.
    destruct pre2; [|discriminate]. exfalso. apply Hn.
    destruct (Z.eq_dec fnum 0); [lia|]. now specialize (N2 n).
  - repeat (apply Forall_app; split); assumption.
Qed.

Lemma lower_cases (c x : Z) :
  pyfloat_parse.lower c = x -> 97 <= x <= 122 -> c = x \/ c = x - 32.
Proof. unfold pyfloat_parse.lower. zcases. Qed.

Lemma lower_letter_not_marker (c x : Z) :
  pyfloat_parse.lower c = x -> 97 <= x <= 122 -> x <> 112 -> x <> 116 -> x <> 115 ->
  ~ writer.marker c.
Proof.
  intros H R N1 N2 N3 M. destruct (lower_cases _ _ H R); unfold writer.marker in M; lia.
Qed.

Lemma inf_or_nan_clean (neg : bool) (body : list Z) (f : pyfloat) :
  pyfloat_parse.inf_or_nan neg body = Some f -> writer.clean_ends body.
Proof.
  unfold pyfloat_parse.inf_or_nan.
  destruct (decide (map pyfloat_parse.lower body = [105; 110; 102])) as [E|_].
  { intros _. destruct body as [|a [|b [|c [|]]]]; try discriminate.
    inversion E. exists a, c. repeat split;
      eapply lower_letter_not_marker; eauto; lia. }
  destruct (decide (map pyfloat_parse.lower body
                    = [105; 110; 102; 105; 110; 105; 116; 121])) as [E|_].
  { intros _.
    destruct body as [|a [|b [|c [|d [|e [|g [|h [|i [|]]]]]]]]]; try discriminate.
    inversion E. exists a, i. repeat split;
      eapply lower_letter_not_marker; eauto; lia. }
  destruct (decide (map pyfloat_parse.lower body = [110; 97; 110])) as [E|_];
    [|discriminate].
  intros _. destruct body as [|a [|b [|c [|]]]]; try discriminate.
  inversion E. exists a, c. repeat split;
    eapply lower_letter_not_marker; eauto; lia.
Qed.

(** Whatever [float] accepts neither starts nor ends with [P], [T] or [S]. *)
Lemma py_float_clean_ends (text : string) (f : pyfloat) :
  py_float text = Ok f ->
  writer.clean_ends (map pyfloat_parse.code (list_ascii_of_string text)).
Proof.
  unfold py_float, pyfloat_parse.parse.
  set (l := map pyfloat_parse.code (list_ascii_of_string text)).
  destruct (strip_space_split l) as (pre & post & El & Fpre & Fpost).
  destruct (pyfloat_parse.drop_underscores 0 (pyfloat_parse.strip_space l))
    as [s|] eqn:Ed; [|discriminate].
  destruct (pyfloat_parse.sign_of s) as [neg body] eqn:Es.
  intros H.
  assert (Hbody : writer.clean_ends body).
  { destruct (pyfloat_parse.inf_or_nan neg body) as [g|] eqn:Ei.
    - eapply inf_or_nan_clean; eassumption.
    - apply number_chars in H as [Hne Hall]. apply clean_ends_Forall; [assumption|].
      eapply Forall_impl; [exact Hall|]. apply numchar_not_marker. }
  assert (Hs : writer.clean_ends s).
  { destruct (sign_of_split _ _ _ Es) as [-> | [-> | ->]]; [assumption | |].
    - apply (clean_ends_wrap [45] body []) in Hbody; [|repeat constructor|constructor].
      + now rewrite app_nil_r in Hbody.
      + unfold writer.marker. lia.
    - apply (clean_ends_wrap [43] body []) in Hbody; [|repeat constructor|constructor].
      + now rewrite app_nil_r in Hbody.
      + unfold writer.marker. lia. }
  assert (Hst : writer.clean_ends (pyfloat_parse.strip_space l)).
  { destruct Hs as (a & b & Ha & Hb & Ma & Mb). exists a, b.
    rewrite <- (drop_underscores_head _ _ 0 eq_refl Ed), <- (drop_underscores_last _ _ _ Ed).
    auto. }
  rewrite El. apply clean_ends_wrap; [| |assumption];
    (eapply Forall_impl; [eassumption|]); apply space_not_marker.
Qed.

(** ** [strip('PTS')] against the removal of the two markers *)

Lemma char_in_marker (c : ascii) :
  char_in c "PTS" = true <-> writer.marker (pyfloat_parse.code c).
Proof.
  unfold char_in, writer.marker, pyfloat_parse.code. cbn [list_ascii_of_string existsb].
  rewrite !orb_true_iff, !Ascii.eqb_eq.
  assert (E : forall n (a : ascii), N_of_ascii a = n -> (n < 256)%N ->
              (c = a <-> Z.of_N (N_of_ascii c) = Z.of_N n)).
  { intros n a <- Hn. split; [now intros ->|]. intros H.
    apply N2Z.inj in H. rewrite <- (ascii_N_embedding c), H. apply ascii_N_embedding. }
  rewrite (E 80%N "P"%char), (E 84%N "T"%char), (E 83%N "S"%char) by (reflexivity || lia).
  intuition discriminate.
Qed.

Lemma char_in_not_marker (c : ascii) :
  ~ writer.marker (pyfloat_parse.code c) -> char_in c "PTS" = false.
Proof.
  intros H. destruct (char_in c "PTS") eqn:E; [|reflexivity].
  apply char_in_marker in E. contradiction.
Qed.

Lemma last_map {A B : Type} (f : A -> B) (l : list A) :
  last (map f l) = option_map f (last l).
Proof.
  induction l as [|a l IH]; [reflexivity|].
  cbn [map]. rewrite !last_cons, IH. destruct (last l); reflexivity.
Qed.

Lemma head_rev {A : Type} (l : list A) : head (rev l) = last l.
Proof.
  induction l as [|x l _] using rev_ind; [reflexivity|].
  now rewrite rev_app_distr, last_snoc.
Qed.

(** Leading markers are removed up to the first other character. *)
Lemma lstrip_list_prefix (pre l : list ascii) (a : ascii) :
  Forall (fun c => char_in c "PTS" = true) pre ->
  head l = Some a -> char_in a "PTS" = false ->
  lstrip_list "PTS" (pre ++ l) = l.
Proof.
  intros Hpre Ha Hc. induction Hpre as [|p pre Hp _ IH].
  - destruct l as [|a' l]; [discriminate|]. cbn in Ha. inversion Ha; subst.
    cbn [app lstrip_list]. now rewrite Hc.
  - cbn [app lstrip_list]. now rewrite Hp.
Qed.

Lemma str_strip_wrap (pre r post : list ascii) :
  Forall (fun c => char_in c "PTS" = true) pre ->
  Forall (fun c => char_in c "PTS" = true) post ->
  writer.clean_ends (map pyfloat_parse.code r) ->
  str_strip "PTS" (string_of_list_ascii (pre ++ r ++ post)) = string_of_list_ascii r.
Proof.
  intros Hpre Hpost (a & b & Ha & Hb & Ma & Mb).
  unfold str_strip. rewrite list_ascii_of_string_of_list_ascii.
  destruct r as [|a' r]; [discriminate|]. cbn in Ha. inversion Ha; subst a.
  rewrite (lstrip_list_prefix pre ((a' :: r) ++ post) a');
    [|assumption|reflexivity|now apply char_in_not_marker].
  rewrite rev_app_distr.
  assert (Hl : exists b', head (rev (a' :: r)) = Some b' /\ b = pyfloat_parse.code b').
  { rewrite head_rev. rewrite last_map in Hb.
    destruct (last (a' :: r)) as [b'|]; [|discriminate].
    cbn in Hb. inversion Hb. eauto. }
  destruct Hl as (b' & Hb' & ->).
  rewrite (lstrip_list_prefix (rev post) (rev (a' :: r)) b');
    [|now apply Forall_rev|assumption|now apply char_in_not_marker].
  now rewrite rev_involutive.
Qed.

Lemma strip_markers_split (s : string) :
  exists pre post,
    list_ascii_of_string s = pre ++ list_ascii_of_string (writer.strip_markers s) ++ post
    /\ Forall (fun c => char_in c "PTS" = true) pre
    /\ Forall (fun c => char_in c "PTS" = true) post.
Proof.
  unfold writer.strip_markers. set (l := list_ascii_of_string s).
  set (l1 := match l with
             | a :: b :: rest => if Ascii.eqb a "P" && Ascii.eqb b "T" then rest else l
             | _ => l
             end).
  assert (H1 : exists pre, l = pre ++ l1 /\ Forall (fun c => char_in c "PTS" = true) pre).
  { subst l1. destruct l as [|a [|b rest]]; try (exists []; auto; fail).
    destruct (Ascii.eqb_spec a "P"), (Ascii.eqb_spec b "T"); cbn [andb];
      try (exists []; auto; fail).
    subst. exists ["P"%char; "T"%char]. split; [reflexivity|]. repeat constructor. }
  destruct H1 as (pre & El & Fpre). rewrite El. clearbody l1. clear El.
  destruct (rev l1) as [|c r] eqn:Er.
  - exists pre, []. rewrite list_ascii_of_string_of_list_ascii, app_nil_r. auto.
  - destruct (Ascii.eqb_spec c "S").
    + subst c. exists pre, ["S"%char]. rewrite list_ascii_of_string_of_list_ascii.
      split; [|split; [assumption | repeat constructor]].
      f_equal. rewrite <- (rev_involutive l1), Er. reflexivity.
    + exists pre, []. rewrite list_ascii_of_string_of_list_ascii, app_nil_r. auto.
Qed.

(** When what is left after the two markers is a number for [float],
    [strip('PTS')] leaves exactly that. *)
Lemma str_strip_markers (s : string) (f : pyfloat) :
  py_float (writer.strip_markers s) = Ok f ->
  str_strip "PTS" s = writer.strip_markers s.
Proof.
  intros H. apply py_float_clean_ends in H.
  destruct (strip_markers_split s) as (pre & post & E & Fpre & Fpost).
  pose proof (str_strip_wrap pre _ post Fpre Fpost H) as W.
  rewrite <- E, !string_of_list_ascii_of_string in W. exact W.
Qed.

(** ** The decoder against its specification *)

(** C1: with 64-bit precision the decoder should read 8-byte big-endian
    integers and cast each to a 64-bit float. The code sets the element
    width to 8 but still unpacks 4-byte words (format [L]) and casts
    through a 4-byte [float], so every non-empty payload whose
    precision is ["64"] is refused with [struct.error]. *)
Theorem precision64_payload_refused
    (zlib_decompress : list byte -> result (list byte)) (native : struct.byteorder)
    (info : gmap string value) (text : string) (data : list byte) :
  info !! "precision" = Some (VStr "64") ->
  raw_buffer zlib_decompress info text = Ok data ->
  data <> [] ->
  _decode_peaks zlib_decompress native info text = Raise struct_error.
Proof.
  intros Hp Hraw Hne. rewrite (decode_peaks_raw _ _ _ _ _ Hraw).
  apply decode_buffer_not32; [|assumption].
  unfold item_eq_str. now rewrite Hp.
Qed.

(** The big-endian doubles 1.0 and 2.0, uncompressed. *)
Lemma precision64_payload_refused_witness :
  let info : gmap string value := {[ "precision" := VStr "64" ]} in
  let text := "P/AAAAAAAABAAAAAAAAAAA==" in
  raw_buffer zlib_stored.decompress info text
    = Ok (map byte_of_Z [63; 240; 0; 0; 0; 0; 0; 0; 64; 0; 0; 0; 0; 0; 0; 0])
  /\ _decode_peaks zlib_stored.decompress struct.little info text = Raise struct_error.
Proof.
  split; [vm_compute; reflexivity|].
  apply (precision64_payload_refused zlib_stored.decompress struct.little
           {[ "precision" := VStr "64" ]} "P/AAAAAAAABAAAAAAAAAAA=="
           (map byte_of_Z [63; 240; 0; 0; 0; 0; 0; 0; 64; 0; 0; 0; 0; 0; 0; 0]));
    [vm_compute; reflexivity | vm_compute; reflexivity | discriminate].
Defined.

(** C2: the base64 text of the big-endian 32-bit patterns of 100.5,
    10.0, 200.25, 5.0, uncompressed and at precision 32, decodes to
    mzArray = [100.5, 200.25] and intensityArray = [10.0, 5.0]: the
    values at even positions of the decoded sequence and those at odd
    positions. *)
Theorem decode_example_32bit
    (zlib_decompress : list byte -> result (list byte)) (native : struct.byteorder)
    (info : gmap string value) :
  info !! "precision" = Some (VStr "32") ->
  info !! "compressionType" <> Some (VStr "zlib") ->
  let ws := [0x42C90000; 0x41200000; 0x43484000; 0x40A00000] in
  let text := "QskAAEEgAABDSEAAQKAAAA==" in
  exists v100_5 v10 v200_25 v5,
    map py_float ["100.5"; "10.0"; "200.25"; "5.0"] = map Ok [v100_5; v10; v200_25; v5]
    /\ map ieee754.float_of_bits32 ws = [v100_5; v10; v200_25; v5]
    /\ writer.b64text (writer.pack_BE_L ws) = text
    /\ _decode_peaks zlib_decompress native info text
       = Ok ([v100_5; v200_25], [v10; v5])
    /\ writer.evens [v100_5; v10; v200_25; v5] = [v100_5; v200_25]
    /\ writer.odds [v100_5; v10; v200_25; v5] = [v10; v5].
Proof.
  intros Hp Hc ws text.
  exists (b64_round 201 (-1) false), (b64_round 10 0 false),
         (b64_round 801 (-2) false), (b64_round 5 0 false).
  split; [vm_compute; reflexivity|]. split; [vm_compute; reflexivity|].
  assert (Et : writer.b64text (writer.pack_BE_L ws) = text) by (vm_compute; reflexivity).
  split; [exact Et|]. split; [|split; reflexivity].
  rewrite <- Et.
  rewrite (decode_peaks_raw zlib_decompress native info _ (writer.pack_BE_L ws)).
  - rewrite decode_buffer_32; [vm_compute; reflexivity | assumption | reflexivity].
  - rewrite raw_buffer_b64text. apply get_eq_str_false in Hc. now rewrite Hc.
Qed.

Lemma decode_example_32bit_witness :
  _decode_peaks zlib_stored.decompress struct.little
                {[ "precision" := VStr "32" ]} "QskAAEEgAABDSEAAQKAAAA=="
  = Ok ([b64_round 201 (-1) false; b64_round 801 (-2) false],
        [b64_round 10 0 false; b64_round 5 0 false]).
Proof.
  destruct (decode_example_32bit zlib_stored.decompress struct.little
              {[ "precision" := VStr "32" ]})
    as (a & b & c & d & Hf & _ & _ & Hd & _); [vm_compute; reflexivity | discriminate |].
  vm_compute in Hf. inversion Hf; subst. exact Hd.
Defined.



(** C4, as stated, fails: the text ["!!!!"] is not valid base64, and it
    decodes without an error to two empty arrays; a valid text with a
    foreign character inserted decodes as if the character were absent. *)
Lemma invalid_characters_decode_silently :
  let info : gmap string value := {[ "precision" := VStr "32" ]} in
  writer.valid_base64 (list_byte_of_string "!!!!") = false
  /\ _decode_peaks zlib_stored.decompress struct.little info "!!!!" = Ok ([], [])
  /\ writer.valid_base64 (list_byte_of_string "Qsk!AAA==") = false
  /\ _decode_peaks zlib_stored.decompress struct.little info "Qsk!AAA=="
     = Ok ([b64_round 201 (-1) false], []).
Proof. vm_compute. repeat split; reflexivity. Qed.

(** C4, amended: characters outside the alphabet are skipped, and the
    decoder raises [binascii.Error] for incorrect padding. For ASCII
    text whose pad characters all come after the last alphabet
    character, with [n] alphabet characters and [k] pads, decoding
    fails with [binascii.Error] when [n mod 4 = 1], or [n mod 4 = 2]
    with fewer than two pads, or [n mod 4 = 3] with no pad. *)
Theorem bad_padding_raises_binascii_Error
    (zlib_decompress : list byte -> result (list byte)) (native : struct.byteorder)
    (info : gmap string value) (text : string) (body tail : list byte) :
  encode_ascii text = Ok (body ++ tail) ->
  Forall (fun c => writer.is_pad c = false) body ->
  Forall (fun c => writer.is_alphabet c = false) tail ->
  writer.bad_padding (writer.count_alphabet body) (writer.count_pad tail) ->
  _decode_peaks zlib_decompress native info text = Raise binascii_Error.
Proof.
  intros He Hb Ht Hbad. apply decode_peaks_raw_error.
  apply (raw_buffer_b64_error _ _ _ _ He). unfold b64decode.
  now apply a2b_base64_padding.
Qed.

Lemma bad_padding_raises_binascii_Error_witness :
  _decode_peaks zlib_stored.decompress struct.little
                {[ "precision" := VStr "32" ]} "Qsk AAE=" = Raise binascii_Error.
Proof.
  apply (bad_padding_raises_binascii_Error zlib_stored.decompress struct.little
           {[ "precision" := VStr "32" ]} "Qsk AAE="
           (list_byte_of_string "Qsk AAE") (list_byte_of_string "=")).
  - vm_compute; reflexivity.
  - repeat constructor.
  - repeat constructor.
  - right. left. vm_compute. split; reflexivity.
Defined.

(** C6, as stated, fails: a buffer of 4 bytes at precision 32 has a
    length that is not divisible by the element width times two, and
    it decodes to one m/z value and no intensity. *)
Lemma odd_word_count_decodes :
  let info : gmap string value := {[ "precision" := VStr "32" ]} in
  raw_buffer zlib_stored.decompress info "QskAAA==" = Ok (map byte_of_Z [66; 201; 0; 0])
  /\ 4 mod (4 * 2) <> 0
  /\ _decode_peaks zlib_stored.decompress struct.little info "QskAAA=="
     = Ok ([b64_round 201 (-1) false], []).
Proof. vm_compute. repeat split; try reflexivity. discriminate. Qed.

(** C6, amended: a buffer whose length is not divisible by the element
    width (4 when the precision is ["32"], 8 otherwise) is refused with
    [struct.error]; that the number of values is even is not checked. *)
Theorem ragged_buffer_raises_struct_error
    (zlib_decompress : list byte -> result (list byte)) (native : struct.byteorder)
    (info : gmap string value) (text : string) (data : list byte) (is32 : bool) :
  raw_buffer zlib_decompress info text = Ok data ->
  item_eq_str info "precision" "32" = Ok is32 ->
  Z.of_nat (length data) mod (if is32 then 4 else 8) <> 0 ->
  _decode_peaks zlib_decompress native info text = Raise struct_error.
Proof.
  intros Hraw Hp Hl. rewrite (decode_peaks_raw _ _ _ _ _ Hraw).
  now apply decode_buffer_ragged with is32.
Qed.

Lemma ragged_buffer_raises_struct_error_witness :
  _decode_peaks zlib_stored.decompress struct.little
                {[ "precision" := VStr "32" ]} "QskAAEE=" = Raise struct_error.
Proof.
  apply (ragged_buffer_raises_struct_error zlib_stored.decompress struct.little
           {[ "precision" := VStr "32" ]} "QskAAEE="
           (map byte_of_Z [66; 201; 0; 0; 65]) true).
  - vm_compute; reflexivity.
  - vm_compute; reflexivity.
  - vm_compute; discriminate.
Defined.

(** C7: the uncompressed encoding of a buffer decoded with a
    compression kind other than zlib, and its zlib-compressed encoding
    decoded with kind zlib, give the same result under the same
    precision. *)
Theorem compression_transparent
    (zlib_decompress : list byte -> result (list byte)) (native : struct.byteorder)
    (info_none info_zlib : gmap string value) (data compressed : list byte) :
  info_none !! "precision" = info_zlib !! "precision" ->
  info_none !! "compressionType" <> Some (VStr "zlib") ->
  info_zlib !! "compressionType" = Some (VStr "zlib") ->
  zlib_decompress compressed = Ok data ->
  _decode_peaks zlib_decompress native info_none (writer.b64text data)
  = _decode_peaks zlib_decompress native info_zlib (writer.b64text compressed).
Proof.
  intros Hp Hn Hz Hd.
  rewrite (decode_peaks_raw zlib_decompress native info_none _ data).
  - rewrite (decode_peaks_raw zlib_decompress native info_zlib _ data).
    + now apply decode_buffer_precision.
    + rewrite raw_buffer_b64text. apply get_eq_str_true in Hz. now rewrite Hz.
  - rewrite raw_buffer_b64text. apply get_eq_str_false in Hn. now rewrite Hn.
Qed.

Lemma compression_transparent_witness :
  let data := writer.pack_BE_L [0x42C90000; 0x41200000; 0x43484000; 0x40A00000] in
  _decode_peaks zlib_stored.decompress struct.little
    {[ "precision" := VStr "32"; "compressionType" := VStr "none" ]}
    (writer.b64text data)
  = _decode_peaks zlib_stored.decompress struct.little
    {[ "precision" := VStr "32"; "compressionType" := VStr "zlib" ]}
    (writer.b64text (zlib_stored.compress data)).
Proof.
  apply (compression_transparent zlib_stored.decompress struct.little
           {[ "precision" := VStr "32"; "compressionType" := VStr "none" ]}
           {[ "precision" := VStr "32"; "compressionType" := VStr "zlib" ]}).
  - vm_compute; reflexivity.
  - vm_compute; discriminate.
  - vm_compute; reflexivity.
  - vm_compute; reflexivity.
Defined.

(** C10: when the [compressionType] entry is anything but the string
    ['zlib'], or is missing, the base64-decoded bytes are decoded as
    they are, and [zlib.decompress] is not called. *)
Theorem non_zlib_is_uncompressed
    (zlib_decompress : list byte -> result (list byte)) (native : struct.byteorder)
    (info : gmap string value) (text : string) :
  info !! "compressionType" <> Some (VStr "zlib") ->
  raw_buffer zlib_decompress info text = encode_ascii text ≫= b64decode
  /\ _decode_peaks zlib_decompress native info text
     = (encode_ascii text ≫= b64decode) ≫= decode_buffer native info.
Proof.
  intros Hn. apply get_eq_str_false in Hn.
  assert (E : raw_buffer zlib_decompress info text = encode_ascii text ≫= b64decode).
  { unfold raw_buffer. rewrite Hn.
    destruct (encode_ascii text) as [content|e]; [|reflexivity]. cbn.
    destruct (b64decode content); reflexivity. }
  split; [exact E|]. unfold _decode_peaks. now rewrite E.
Qed.

Lemma non_zlib_is_uncompressed_witness :
  let info : gmap string value :=
    {[ "precision" := VStr "32"; "compressionType" := VStr "gzip" ]} in
  _decode_peaks (fun _ => Raise zlib_error) struct.little info "QskAAEEgAAA="
  = Ok ([b64_round 201 (-1) false], [b64_round 10 0 false]).
Proof.
  destruct (non_zlib_is_uncompressed (fun _ => Raise zlib_error) struct.little
              {[ "precision" := VStr "32"; "compressionType" := VStr "gzip" ]}
              "QskAAEEgAAA=") as [_ H]; [vm_compute; discriminate|].
  cbv zeta. rewrite H. vm_compute. reflexivity.
Defined.

(** ** Record assembly against its specification *)

(** C5: when [peaks] is already a child record, its arrays are copied
    up; when the child lacks them the code means to substitute empty
    arrays, but builds them with [np.array()], which raises
    [TypeError]: the whole assembly fails. *)
Theorem missing_peak_arrays_raise_TypeError
    (zlib_decompress : list byte -> result (list byte)) (native : struct.byteorder)
    (info child : gmap string value) (rest : list value) :
  info !! "peaks" = Some (VList (VDict child :: rest)) ->
  child !! "m/z array" = None \/ child !! "intensity array" = None ->
  MzXML.post_process zlib_decompress native info = Raise TypeError.
Proof.
  intros Hp Hmiss. rewrite post_process_eq.
  rewrite (merge_peaks_child_missing _ _ _ child rest); [reflexivity | | assumption].
  now rewrite alias_id_other.
Qed.

Lemma missing_peak_arrays_raise_TypeError_witness :
  MzXML.post_process zlib_stored.decompress struct.little
    {[ "num" := VStr "7"; "peaks" := VList [VDict {[ "precision" := VStr "32" ]}] ]}
  = Raise TypeError.
Proof.
  apply (missing_peak_arrays_raise_TypeError zlib_stored.decompress struct.little
           {[ "num" := VStr "7"; "peaks" := VList [VDict {[ "precision" := VStr "32" ]}] ]}
           {[ "precision" := VStr "32" ]} []).
  - vm_compute; reflexivity.
  - left. vm_compute; reflexivity.
Defined.

(** C8: a [retentionTime] string loses its leading ["PT"] and trailing
    ["S"], and what is left is parsed as a float that replaces the
    string; ["PT123.45S"] becomes 123.45, the binary64 number
    0x1.edccccccccccdp+6. *)
Theorem retention_time_normalised
    (zlib_decompress : list byte -> result (list byte)) (native : struct.byteorder)
    (info info1 : gmap string value) (s : string) (f : pyfloat) :
  info !! "retentionTime" = Some (VStr s) ->
  py_float (writer.strip_markers s) = Ok f ->
  MzXML.merge_peaks zlib_decompress native (MzXML.alias_id info) = Ok info1 ->
  MzXML.post_process zlib_decompress native info
    = Ok (<["retentionTime" := VFloat f]> info1)
  /\ py_float (writer.strip_markers "PT123.45S")
     = Ok (S754_finite false 8687021468732621 (-46)).
Proof.
  intros Hrt Hf Hm. split; [|vm_compute; reflexivity].
  rewrite post_process_eq, Hm. cbn [mbind result_mbind result_bind].
  unfold MzXML.retention_time.
  rewrite (merge_peaks_other _ _ _ _ "retentionTime" ltac:(discriminate)
             ltac:(discriminate) ltac:(discriminate) Hm).
  rewrite alias_id_other by discriminate. rewrite Hrt.
  rewrite (str_strip_markers s f Hf), Hf. reflexivity.
Qed.

Lemma retention_time_normalised_witness :
  MzXML.post_process zlib_stored.decompress struct.little
    {[ "retentionTime" := VStr "PT123.45S" ]}
  = Ok {[ "retentionTime" := VFloat (S754_finite false 8687021468732621 (-46)) ]}.
Proof.
  destruct (retention_time_normalised zlib_stored.decompress struct.little
              {[ "retentionTime" := VStr "PT123.45S" ]}
              {[ "retentionTime" := VStr "PT123.45S" ]}
              "PT123.45S" (S754_finite false 8687021468732621 (-46)))
    as [H _]; [vm_compute; reflexivity | vm_compute; reflexivity
               | vm_compute; reflexivity |].
  rewrite H. now rewrite insert_singleton_eq.
Defined.



(** ** More on the decoder: shapes, order, errors *)

Lemma alternate_length {A : Type} (l : list A) :
  forall take,
  (length (writer.alternate take l) + length (writer.alternate (negb take) l)
   = length l)%nat
  /\ (length (writer.alternate false l) <= length (writer.alternate true l)
      <= S (length (writer.alternate false l)))%nat.
Proof.
  induction l as [|x l IH]; intros take; [cbn; lia|].
  destruct (IH true) as [S1 B1]. cbn [negb] in S1.
  destruct take; cbn [writer.alternate negb length]; lia.
Qed.

(** Position [i] of the selected elements is position [2i] (or [2i+1])
    of the list. *)
Lemma alternate_lookup {A : Type} (l : list A) :
  forall take i,
  writer.alternate take l !! i = l !! (2 * i + (if take then 0 else 1))%nat.
Proof.
  induction l as [|x l IH]; intros take i; [now destruct take|].
  destruct take; cbn [writer.alternate].
  - destruct i as [|i]; [reflexivity|]. cbn [lookup list_lookup].
    rewrite IH. replace (2 * S i + 0)%nat with (S (2 * i + 1)) by lia. reflexivity.
  - rewrite IH. replace (2 * i + 1)%nat with (S (2 * i + 0)) by lia. reflexivity.
Qed.

Lemma lookup_map {A B : Type} (f : A -> B) (l : list A) (i : nat) :
  map f l !! i = f <$> l !! i.
Proof. exact (list_lookup_fmap f l i). Qed.

Lemma length_words_be (data : list byte) :
  Z.of_nat (length (struct.words_be data)) = Z.of_nat (length data) / 4.
Proof.
  remember (length data) as n eqn:E. revert data E.
  induction n as [n IH] using lt_wf_ind.
  intros [|b0 [|b1 [|b2 [|b3 rest]]]] E; subst n; try reflexivity.
  cbn [struct.words_be length].
  rewrite !Nat2Z.inj_succ, (IH (length rest)) by (cbn; lia || reflexivity).
  divmod.
Qed.

(** What a successful call of the buffer decoder returned. *)
Lemma decode_buffer_Ok (native : struct.byteorder) (info : gmap string value)
      (data : list byte) (mz it : numpy.ndarray) :
  decode_buffer native info data = Ok (mz, it) ->
  Z.of_nat (length data) mod 4 = 0
  /\ mz = map ieee754.float_of_bits32 (writer.evens (struct.words_be data))
  /\ it = map ieee754.float_of_bits32 (writer.odds (struct.words_be data)).
Proof.
  unfold decode_buffer.
  destruct (item_eq_str info "precision" "32") as [is32|] eqn:Ep; [|discriminate].
  cbn [mbind result_mbind result_bind]. unfold struct.unpack_BE_L.
  match goal with |- context [?x =? ?y] => destruct (Z.eqb_spec x y) as [El|] end;
    [|discriminate].
  assert (Hm : Z.of_nat (length data) mod 4 = 0) by (destruct is32; divmod).
  cbn [mbind result_mbind result_bind].
  rewrite split_loop_spec by apply words_be_range. cbn.
  intros H. inversion H. split; [exact Hm | split; reflexivity].
Qed.

(** The decoder reads the record only through two of its entries. *)
Lemma decode_peaks_entries (zlib_decompress : list byte -> result (list byte))
      (native : struct.byteorder) (info1 info2 : gmap string value) (text : string) :
  info1 !! "precision" = info2 !! "precision" ->
  info1 !! "compressionType" = info2 !! "compressionType" ->
  _decode_peaks zlib_decompress native info1 text
  = _decode_peaks zlib_decompress native info2 text.
Proof.
  intros Hp Hc. unfold _decode_peaks, raw_buffer, get_eq_str. rewrite Hc.
  destruct (encode_ascii text) as [content|]; [|reflexivity]. cbn.
  destruct (b64decode content) as [data|]; [|reflexivity]. cbn.
  destruct (match info2 !! "compressionType" with
            | Some (VStr t) => String.eqb t "zlib"
            | _ => false
            end).
  - destruct (zlib_decompress data); [|reflexivity]. cbn.
    now apply decode_buffer_precision.
  - cbn. now apply decode_buffer_precision.
Qed.

(** The first character above 127 stops the encoding. *)
Lemma encode_ascii_non_ascii (text : string) :
  Exists (fun c => (128 <= N_of_ascii c)%N) (list_ascii_of_string text) ->
  encode_ascii text = Raise UnicodeEncodeError.
Proof.
  induction text as [|c text IH]; cbn [list_ascii_of_string encode_ascii]; intros H.
  - inversion H.
  - destruct (N.ltb_spec (N_of_ascii c) 128) as [Hc|]; [|reflexivity].
    inversion H; subst; [lia|]. now rewrite IH.
Qed.

(** The decoder on the bytes of a text and on the bytes that count. *)
Lemma b64decode_filter (s : list byte) :
  b64decode (filter (fun c => writer.is_pad c || writer.is_alphabet c = true) s)
  = b64decode s.
Proof. unfold b64decode, binascii.a2b_base64. now rewrite loop_filter. Qed.

Lemma Forall_filter_ascii (s : list byte) (P : byte -> Prop) `{forall c, Decision (P c)} :
  Forall (fun b => byte_to_Z b < 128) s ->
  Forall (fun b => byte_to_Z b < 128) (filter P s).
Proof.
  induction 1 as [|c s Hc _ IH]; [constructor|].
  rewrite filter_cons. destruct (decide (P c)); [now constructor | assumption].
Qed.

(** A group completed by its pads leaves the loop: nothing after it is read. *)
Lemma loop_b64encode_done (data : list byte) :
  forall st, binascii.quad_pos st = 0 ->
  (length data mod 3 <> 0)%nat ->
  exists st', binascii.loop (writer.b64encode data) st = (st', true)
    /\ binascii.bin_data st' = binascii.bin_data st ++ data.
Proof.
  induction data as [|a|a b|a b c l IH] using list_ind3; intros st Hq Hl.
  - cbn in Hl. congruence.
  - now apply loop_tail1.
  - now apply loop_tail2.
  - change (writer.b64encode (a :: b :: c :: l))
      with (writer.sextets3 (byte_to_Z a) (byte_to_Z b) (byte_to_Z c) ++ writer.b64encode l).
    rewrite loop_quantum by assumption.
    destruct (IH (binascii.State 0 0 0 (binascii.bin_data st ++ [a; b; c])) eq_refl)
      as (st' & E & D).
    { cbn [length] in Hl. intros C. apply Hl.
      change (S (S (S (length l)))) with (3 + length l)%nat.
      rewrite Nat.Div0.add_mod, C by lia. reflexivity. }
    exists st'. split; [assumption|].
    rewrite D. cbn [binascii.bin_data]. now rewrite <- app_assoc.
Qed.

Lemma encode_ascii_Raise (text : string) (e : exn) :
  encode_ascii text = Raise e -> e = UnicodeEncodeError.
Proof.
  induction text as [|c text IH]; cbn; [discriminate|].
  destruct (N_of_ascii c <? 128)%N; [|intros H; now inversion H].
  destruct (encode_ascii text); cbn; [discriminate|].
  intros H. inversion H; subst. now apply IH.
Qed.

Lemma b64decode_Raise (s : list byte) (e : exn) :
  b64decode s = Raise e -> e = binascii_Error.
Proof.
  unfold b64decode, binascii.a2b_base64.
  destruct (binascii.loop s binascii.init) as [st []]; [discriminate|].
  destruct (binascii.quad_pos st =? 0); [discriminate|]. intros H. now inversion H.
Qed.

Lemma decode_buffer_Raise (native : struct.byteorder) (info : gmap string value)
      (data : list byte) (e : exn) :
  decode_buffer native info data = Raise e -> e = KeyError \/ e = struct_error.
Proof.
  unfold decode_buffer, item_eq_str.
  destruct (info !! "precision") as [v|]; [|intros H; inversion H; auto].
  assert (G : forall is32 : bool,
             (struct.unpack_BE_L (Z.of_nat (length data) / (if is32 then 4 else 8)) data
              ≫= (fun unpacked => split_loop native unpacked 0 [] [])) = Raise e ->
             e = KeyError \/ e = struct_error).
  { intros is32. unfold struct.unpack_BE_L.
    match goal with |- context [?x =? ?y] => destruct (x =? y) end.
    - cbn [mbind result_mbind result_bind].
      rewrite split_loop_spec by apply words_be_range. discriminate.
    - intros H. inversion H. auto. }
  destruct v as [ |t| | | | | | ]; cbn [mbind result_mbind result_bind];
    try apply (G false). apply (G (String.eqb t "32")).
Qed.

Lemma b64decode_after_padding (data extra : list byte) :
  (length data mod 3 <> 0)%nat ->
  b64decode (writer.b64encode data ++ extra) = Ok data.
Proof.
  intros Hl. unfold b64decode, binascii.a2b_base64. rewrite loop_app.
  destruct (loop_b64encode_done data binascii.init eq_refl Hl) as (st' & E & D).
  rewrite E. cbn in D. now rewrite D.
Qed.

(** X1: whenever decoding succeeds, the raw buffer held exactly four
    bytes for each returned value, and the m/z array has as many values
    as the intensity array or one more. *)
Theorem decoded_arrays_shape
    (zlib_decompress : list byte -> result (list byte)) (native : struct.byteorder)
    (info : gmap string value) (text : string) (data : list byte)
    (mz it : numpy.ndarray) :
  raw_buffer zlib_decompress info text = Ok data ->
  _decode_peaks zlib_decompress native info text = Ok (mz, it) ->
  Z.of_nat (length data) = 4 * (Z.of_nat (length mz) + Z.of_nat (length it))
  /\ (length it <= length mz <= S (length it))%nat.
Proof.
  intros Hraw H. rewrite (decode_peaks_raw _ _ _ _ _ Hraw) in H.
  apply decode_buffer_Ok in H as (Hm & -> & ->).
  rewrite !length_map. unfold writer.evens, writer.odds.
  destruct (alternate_length (struct.words_be data) true) as [Hs Hb].
  cbn [negb] in Hs. split; [|exact Hb].
  pose proof (length_words_be data) as Hw. divmod.
Qed.

Lemma decoded_arrays_shape_witness :
  exists mz it,
    _decode_peaks zlib_stored.decompress struct.little
      {[ "precision" := VStr "32" ]} "QskAAEEgAABDSEAA" = Ok (mz, it)
    /\ length mz = 2%nat /\ length it = 1%nat.
Proof.
  destruct (_decode_peaks zlib_stored.decompress struct.little
              {[ "precision" := VStr "32" ]} "QskAAEEgAABDSEAA") as [[mz it]|] eqn:E;
    [|vm_compute in E; discriminate].
  exists mz, it. split; [reflexivity|].
  destruct (decoded_arrays_shape zlib_stored.decompress struct.little
              {[ "precision" := VStr "32" ]} "QskAAEEgAABDSEAA"
              (map byte_of_Z [66; 201; 0; 0; 65; 32; 0; 0; 67; 72; 64; 0]) mz it)
    as [H1 H2]; [vm_compute; reflexivity | exact E |].
  rewrite length_map in H1. cbn [length] in H1. lia.
Defined.

(** X2: the arrays are index-aligned with the buffer: the i-th m/z
    value is the float of the word at position 2i, and the i-th
    intensity that of the word at position 2i+1. *)
Theorem decoded_values_aligned
    (zlib_decompress : list byte -> result (list byte)) (native : struct.byteorder)
    (info : gmap string value) (text : string) (data : list byte)
    (mz it : list pyfloat) (i : nat) :
  raw_buffer zlib_decompress info text = Ok data ->
  _decode_peaks zlib_decompress native info text = Ok (mz, it) ->
  mz !! i = ieee754.float_of_bits32 <$> struct.words_be data !! (2 * i)%nat
  /\ it !! i = ieee754.float_of_bits32 <$> struct.words_be data !! (2 * i + 1)%nat.
Proof.
  intros Hraw H. rewrite (decode_peaks_raw _ _ _ _ _ Hraw) in H.
  apply decode_buffer_Ok in H as (_ & -> & ->).
  rewrite !lookup_map. unfold writer.evens, writer.odds.
  rewrite !alternate_lookup. now rewrite Nat.add_0_r.
Qed.

Lemma decoded_values_aligned_witness :
  exists mz it,
    _decode_peaks zlib_stored.decompress struct.little
      {[ "precision" := VStr "32" ]} "QskAAEEgAABDSEAAQKAAAA==" = Ok (mz, it)
    /\ mz !! 1%nat = Some (ieee754.float_of_bits32 0x43484000)
    /\ it !! 1%nat = Some (ieee754.float_of_bits32 0x40A00000).
Proof.
  destruct (_decode_peaks zlib_stored.decompress struct.little
              {[ "precision" := VStr "32" ]} "QskAAEEgAABDSEAAQKAAAA==")
    as [[mz it]|] eqn:E; [|vm_compute in E; discriminate].
  exists mz, it. split; [reflexivity|].
  apply (decoded_values_aligned zlib_stored.decompress struct.little
           {[ "precision" := VStr "32" ]} "QskAAEEgAABDSEAAQKAAAA=="
           (writer.pack_BE_L [0x42C90000; 0x41200000; 0x43484000; 0x40A00000])
           mz it 1%nat); [vm_compute; reflexivity | exact E].
Defined.

(** X3: the result does not depend on the byte order of the machine:
    packing as a native [I] and unpacking as a native [f] is the same
    bit-cast on a little-endian and on a big-endian machine. *)
Theorem decode_peaks_byte_order_independent
    (zlib_decompress : list byte -> result (list byte))
    (info : gmap string value) (text : string) :
  _decode_peaks zlib_decompress struct.little info text
  = _decode_peaks zlib_decompress struct.big info text.
Proof.
  unfold _decode_peaks.
  destruct (raw_buffer zlib_decompress info text) as [data|]; [|reflexivity].
  cbn [mbind result_mbind result_bind]. unfold decode_buffer.
  destruct (item_eq_str info "precision" "32") as [is32|]; [|reflexivity].
  cbn [mbind result_mbind result_bind]. unfold struct.unpack_BE_L.
  match goal with |- context [?x =? ?y] => destruct (x =? y) end; [|reflexivity].
  cbn [mbind result_mbind result_bind].
  apply split_loop_native, words_be_range.
Qed.

(** X4: a text with a character above code 127 is refused with
    [UnicodeEncodeError] by the first statement, whatever the record
    holds. *)
Theorem non_ascii_text_raises_UnicodeEncodeError
    (zlib_decompress : list byte -> result (list byte)) (native : struct.byteorder)
    (info : gmap string value) (text : string) :
  Exists (fun c => (128 <= N_of_ascii c)%N) (list_ascii_of_string text) ->
  _decode_peaks zlib_decompress native info text = Raise UnicodeEncodeError.
Proof.
  intros H. apply decode_peaks_raw_error. unfold raw_buffer.
  now rewrite encode_ascii_non_ascii.
Qed.

Lemma non_ascii_text_raises_UnicodeEncodeError_witness :
  _decode_peaks zlib_stored.decompress struct.little ∅
                (String "Q" (String "Q" (String (ascii_of_N 233) "=")))
  = Raise UnicodeEncodeError.
Proof.
  apply non_ascii_text_raises_UnicodeEncodeError.
  cbn [list_ascii_of_string]. do 2 apply Exists_cons_tl. apply Exists_cons_hd.
  vm_compute. discriminate.
Defined.

(** X5: the only exceptions the decoder raises by itself are
    [UnicodeEncodeError], [binascii.Error], [KeyError] (no [precision]
    entry) and [struct.error]; any other exception comes out of
    [zlib.decompress]. The cast of line 39 never fails. *)
Theorem decode_peaks_exceptions
    (zlib_decompress : list byte -> result (list byte)) (native : struct.byteorder)
    (info : gmap string value) (text : string) (e : exn) :
  _decode_peaks zlib_decompress native info text = Raise e ->
  e = UnicodeEncodeError \/ e = binascii_Error \/ e = KeyError \/ e = struct_error
  \/ exists content payload,
       encode_ascii text = Ok content /\ b64decode content = Ok payload
       /\ zlib_decompress payload = Raise e.
Proof.
  unfold _decode_peaks, raw_buffer.
  destruct (encode_ascii text) as [content|e1] eqn:E1; cbn [mbind result_mbind result_bind].
  2:{ intros H. inversion H; subst. left. eapply encode_ascii_Raise; eassumption. }
  destruct (b64decode content) as [payload|e2] eqn:E2; cbn [mbind result_mbind result_bind].
  2:{ intros H. inversion H; subst. right; left. eapply b64decode_Raise; eassumption. }
  destruct (get_eq_str info "compressionType" "zlib").
  - destruct (zlib_decompress payload) as [data|e3] eqn:E3;
      cbn [mbind result_mbind result_bind].
    + intros H. apply decode_buffer_Raise in H. tauto.
    + intros H. inversion H; subst. right; right; right; right. eauto.
  - cbn [mbind result_mbind result_bind]. intros H. apply decode_buffer_Raise in H. tauto.
Qed.

Lemma decode_peaks_exceptions_witness :
  _decode_peaks zlib_stored.decompress struct.little ∅ "QskAAA==" = Raise KeyError
  /\ (KeyError = UnicodeEncodeError \/ KeyError = binascii_Error \/ KeyError = KeyError
      \/ KeyError = struct_error
      \/ exists content payload,
           encode_ascii "QskAAA==" = Ok content /\ b64decode content = Ok payload
           /\ zlib_stored.decompress payload = Raise KeyError).
Proof.
  split; [vm_compute; reflexivity|].
  apply (decode_peaks_exceptions zlib_stored.decompress struct.little ∅ "QskAAA==").
  vm_compute. reflexivity.
Defined.

(** X6: bytes that are neither alphabet nor pad characters (spaces,
    line breaks, any other 7-bit character) do not matter: a text
    decodes like the text without them. *)
Theorem foreign_characters_ignored
    (zlib_decompress : list byte -> result (list byte)) (native : struct.byteorder)
    (info : gmap string value) (s : list byte) :
  Forall (fun b => byte_to_Z b < 128) s ->
  _decode_peaks zlib_decompress native info (string_of_list_byte s)
  = _decode_peaks zlib_decompress native info
      (string_of_list_byte
         (filter (fun c => writer.is_pad c || writer.is_alphabet c = true) s)).
Proof.
  intros Hs. unfold _decode_peaks, raw_buffer.
  rewrite !encode_ascii_text by (try apply Forall_filter_ascii; assumption).
  cbn [mbind result_mbind result_bind]. now rewrite b64decode_filter.
Qed.

Lemma foreign_characters_ignored_witness :
  _decode_peaks zlib_stored.decompress struct.little {[ "precision" := VStr "32" ]}
                "Qsk AA
 EEg*AAA="
  = _decode_peaks zlib_stored.decompress struct.little {[ "precision" := VStr "32" ]}
                "QskAAEEgAAA=".
Proof.
  apply (foreign_characters_ignored zlib_stored.decompress struct.little
           {[ "precision" := VStr "32" ]}
           (list_byte_of_string "Qsk AA
 EEg*AAA=")).
  repeat constructor.
Defined.

(** X7: once the pad characters complete the last group, the rest of
    the text is not read: whatever follows a padded base64 text is
    silently dropped. *)
Theorem text_after_padding_ignored
    (zlib_decompress : list byte -> result (list byte)) (native : struct.byteorder)
    (info : gmap string value) (data extra : list byte) :
  (length data mod 3 <> 0)%nat ->
  Forall (fun b => byte_to_Z b < 128) extra ->
  _decode_peaks zlib_decompress native info
                (string_of_list_byte (writer.b64encode data ++ extra))
  = _decode_peaks zlib_decompress native info (writer.b64text data).
Proof.
  intros Hl He. unfold _decode_peaks, raw_buffer, writer.b64text.
  rewrite !encode_ascii_text
    by (try apply Forall_app; try split; try apply b64encode_ascii; assumption).
  cbn [mbind result_mbind result_bind].
  now rewrite b64decode_after_padding, b64decode_b64encode.
Qed.

Lemma text_after_padding_ignored_witness :
  _decode_peaks zlib_stored.decompress struct.little {[ "precision" := VStr "32" ]}
                "QskAAA==QSAAAA=="
  = _decode_peaks zlib_stored.decompress struct.little {[ "precision" := VStr "32" ]}
                "QskAAA==".
Proof.
  apply (text_after_padding_ignored zlib_stored.decompress struct.little
           {[ "precision" := VStr "32" ]} (map byte_of_Z [66; 201; 0; 0])
           (list_byte_of_string "QSAAAA==")).
  - vm_compute. discriminate.
  - repeat constructor.
Defined.

(** X8: any [precision] value other than the text ["32"] (the text
    ["64"], but also the integer 32) selects the 8-byte width, under
    which only the empty buffer decodes, to two empty arrays; every
    other buffer is refused with [struct.error]. *)
Theorem other_precision_decodes_only_empty
    (zlib_decompress : list byte -> result (list byte)) (native : struct.byteorder)
    (info : gmap string value) (text : string) (data : list byte) (v : value) :
  info !! "precision" = Some v ->
  v <> VStr "32" ->
  raw_buffer zlib_decompress info text = Ok data ->
  _decode_peaks zlib_decompress native info text
  = match data with
    | [] => Ok ([], [])
    | _ :: _ => Raise struct_error
    end.
Proof.
  intros Hv Hne Hraw. rewrite (decode_peaks_raw _ _ _ _ _ Hraw).
  assert (Hp : item_eq_str info "precision" "32" = Ok false).
  { unfold item_eq_str. rewrite Hv. destruct v as [ |t| | | | | | ]; try reflexivity.
    destruct (String.eqb_spec t "32"); [congruence | reflexivity]. }
  destruct data as [|b data].
  - unfold decode_buffer. rewrite Hp. reflexivity.
  - now apply decode_buffer_not32.
Qed.

Lemma other_precision_decodes_only_empty_witness :
  _decode_peaks zlib_stored.decompress struct.little {[ "precision" := VInt 32 ]}
                "QskAAEEgAAA=" = Raise struct_error
  /\ _decode_peaks zlib_stored.decompress struct.little {[ "precision" := VStr "64" ]}
                   "" = Ok ([], []).
Proof.
  split.
  - apply (other_precision_decodes_only_empty zlib_stored.decompress struct.little
             {[ "precision" := VInt 32 ]} "QskAAEEgAAA="
             (map byte_of_Z [66; 201; 0; 0; 65; 32; 0; 0]) (VInt 32));
      [vm_compute; reflexivity | discriminate | vm_compute; reflexivity].
  - apply (other_precision_decodes_only_empty zlib_stored.decompress struct.little
             {[ "precision" := VStr "64" ]} "" [] (VStr "64"));
      [vm_compute; reflexivity | discriminate | vm_compute; reflexivity].
Defined.

(** X9: lines 25-28 invert the writer's encoding for every byte string:
    the raw buffer of the base64 text of a payload is the payload
    itself, or what [zlib.decompress] makes of it when the record says
    [zlib]. *)
Theorem base64_text_reads_back
    (zlib_decompress : list byte -> result (list byte))
    (info : gmap string value) (payload : list byte) :
  raw_buffer zlib_decompress info (writer.b64text payload)
  = match info !! "compressionType" with
    | Some (VStr "zlib") => zlib_decompress payload
    | _ => Ok payload
    end.
Proof.
  rewrite raw_buffer_b64text. unfold get_eq_str.
  destruct (info !! "compressionType") as [[ |t| | | | | | ]|]; try reflexivity.
  destruct (String.eqb_spec t "zlib") as [->|N]; [reflexivity|].
  destruct t as [|[[] [] [] [] [] [] [] []] t]; try reflexivity.
  repeat match goal with
         | |- context [match ?s with EmptyString => _ | String _ _ => _ end] =>
             destruct s as [|[[] [] [] [] [] [] [] []] ?]; try reflexivity
         end.
  congruence.
Qed.

(** X10: without zlib, and for text whose pad characters all come after
    the last alphabet character, incorrect padding is the only way to
    get [binascii.Error], and it always gives it. *)
Theorem binascii_Error_iff_bad_padding
    (zlib_decompress : list byte -> result (list byte)) (native : struct.byteorder)
    (info : gmap string value) (text : string) (body tail : list byte) :
  info !! "compressionType" <> Some (VStr "zlib") ->
  encode_ascii text = Ok (body ++ tail) ->
  Forall (fun c => writer.is_pad c = false) body ->
  Forall (fun c => writer.is_alphabet c = false) tail ->
  (_decode_peaks zlib_decompress native info text = Raise binascii_Error
   <-> writer.bad_padding (writer.count_alphabet body) (writer.count_pad tail)).
Proof.
  intros Hc He Hb Ht. rewrite <- (a2b_base64_padding body tail Hb Ht).
  apply get_eq_str_false in Hc.
  unfold _decode_peaks, raw_buffer. rewrite He, Hc.
  cbn [mbind result_mbind result_bind]. unfold b64decode.
  destruct (binascii.a2b_base64 (body ++ tail)) as [data|e] eqn:E;
    cbn [mbind result_mbind result_bind].
  - split; [|discriminate]. intros H. apply decode_buffer_Raise in H.
    destruct H; discriminate.
  - pose proof (b64decode_Raise _ _ E) as ->. tauto.
Qed.

Lemma binascii_Error_iff_bad_padding_witness :
  _decode_peaks zlib_stored.decompress struct.little {[ "precision" := VStr "32" ]}
                "QskAAA=" = Raise binascii_Error
  <-> writer.bad_padding 6 1.
Proof.
  apply (binascii_Error_iff_bad_padding zlib_stored.decompress struct.little
           {[ "precision" := VStr "32" ]} "QskAAA="
           (list_byte_of_string "QskAAA") (list_byte_of_string "=")).
  - vm_compute. discriminate.
  - vm_compute. reflexivity.
  - repeat constructor.
  - repeat constructor.
Defined.

(** ** More on record assembly *)

Lemma py_float_Raise (text : string) (e : exn) :
  py_float text = Raise e -> e = ValueError.
Proof.
  unfold py_float, pyfloat_parse.parse.
  destruct (pyfloat_parse.drop_underscores _ _) as [s|]; [|intros H; now inversion H].
  destruct (pyfloat_parse.sign_of s) as [neg body].
  destruct (pyfloat_parse.inf_or_nan neg body); [discriminate|].
  unfold pyfloat_parse.number.
  destruct (pyfloat_parse.digits body 0 0) as [[iv inum] s1].
  destruct (match s1 with
            | 46 :: r => let '(v, n, r') := pyfloat_parse.digits r iv 0 in (v, n, r')
            | _ => (iv, 0, s1)
            end) as [[v fnum] s2].
  destruct (inum + fnum =? 0); [intros H; now inversion H|].
  destruct (pyfloat_parse.exponent s2) as [ev [|c s3]]; [discriminate|].
  intros H. now inversion H.
Qed.

Section AssemblyMore.

Variable zlib_decompress : list byte -> result (list byte).
Variable native : struct.byteorder.

Abbreviation merge_peaks' := (MzXML.merge_peaks zlib_decompress native).
Abbreviation post_process' := (MzXML.post_process zlib_decompress native).

(** A successful [merge_peaks] on an entry that is a list: the first
    element is a record that holds both arrays. *)
Lemma merge_peaks_list_Ok (info info1 : gmap string value) (l : list value) :
  info !! "peaks" = Some (VList l) ->
  merge_peaks' info = Ok info1 ->
  exists child rest mz it,
    l = VDict child :: rest
    /\ child !! "m/z array" = Some mz /\ child !! "intensity array" = Some it
    /\ info1 = <["intensity array" := it]> (<["m/z array" := mz]> (delete "peaks" info)).
Proof.
  intros Hp. unfold MzXML.merge_peaks. rewrite Hp.
  destruct l as [|x rest]; [discriminate|]. cbn.
  unfold MzXML.try_copy.
  destruct x as [ | | | | | |child| ]; cbn; try discriminate.
  destruct (child !! "m/z array") as [mz|] eqn:Emz; [|discriminate].
  destruct (child !! "intensity array") as [it|] eqn:Eit; [|discriminate].
  intros H. inversion H. exists child, rest, mz, it. auto.
Qed.

Lemma merge_peaks_text_Ok (info info1 : gmap string value) (text : string) :
  info !! "peaks" = Some (VStr text) ->
  merge_peaks' info = Ok info1 ->
  exists mz it,
    _decode_peaks zlib_decompress native info text = Ok (mz, it)
    /\ info1 = <["intensity array" := VArray it]>
                 (<["m/z array" := VArray mz]> (delete "peaks" info)).
Proof.
  intros Hp. rewrite (merge_peaks_text _ _ _ _ Hp).
  rewrite (decode_peaks_entries _ _ (delete "peaks" info) info)
    by (now rewrite lookup_delete_ne).
  destruct (_decode_peaks zlib_decompress native info text) as [[mz it]|];
    cbn; [|discriminate].
  intros H. inversion H. eauto.
Qed.

Lemma post_process_Ok (info record : gmap string value) :
  post_process' info = Ok record ->
  exists info1, merge_peaks' (MzXML.alias_id info) = Ok info1
                /\ MzXML.retention_time info1 = Ok record.
Proof.
  rewrite post_process_eq.
  destruct (merge_peaks' (MzXML.alias_id info)) as [info1|]; cbn; [|discriminate].
  eauto.
Qed.

Lemma retention_time_keeps (info record : gmap string value) (k : string) (v : value) :
  k <> "retentionTime" -> info !! k = Some v ->
  MzXML.retention_time info = Ok record -> record !! k = Some v.
Proof. intros Hk Hv H. now rewrite (retention_time_other _ _ _ Hk H). Qed.

Lemma retention_time_keeps_None (info record : gmap string value) (k : string) :
  k <> "retentionTime" -> info !! k = None ->
  MzXML.retention_time info = Ok record -> record !! k = None.
Proof. intros Hk Hv H. now rewrite (retention_time_other _ _ _ Hk H). Qed.

End AssemblyMore.

(** X11: an assembled record keeps, for every key other than [id],
    [peaks], [m/z array], [intensity array] and [retentionTime], exactly
    what [_get_info] returned; and without a [num] entry the [id] entry
    is left as it was. *)
Theorem assembled_record_keeps_other_fields
    (zlib_decompress : list byte -> result (list byte)) (native : struct.byteorder)
    (element kwargs : Type) (_local_name : element -> string)
    (_get_info : element -> bool -> kwargs -> result (gmap string value))
    (elt : element) (rec : option bool) (kw : kwargs)
    (info record : gmap string value) (k : string) :
  _get_info elt (MzXML.effective_recursive (_local_name elt) rec) kw = Ok info ->
  MzXML._get_info_smart zlib_decompress native element kwargs _local_name _get_info
    elt rec kw = Ok record ->
  k <> "peaks" -> k <> "m/z array" -> k <> "intensity array" -> k <> "retentionTime" ->
  k <> "id" \/ info !! "num" = None ->
  record !! k = info !! k.
Proof.
  intros Hg H K1 K2 K3 K4 K5. rewrite get_info_smart_eq, Hg in H.
  cbn [mbind result_mbind result_bind] in H.
  apply post_process_Ok in H as (info1 & Hm & Hr).
  rewrite (retention_time_other _ _ _ K4 Hr).
  rewrite (merge_peaks_other _ _ _ _ _ K1 K2 K3 Hm).
  destruct K5 as [K5|K5]; [now apply alias_id_other | now rewrite alias_id_no_num].
Qed.

Lemma assembled_record_keeps_other_fields_witness :
  exists record,
    MzXML._get_info_smart zlib_stored.decompress struct.little
      (gmap string value) unit (fun _ => "scan") (fun e _ _ => Ok e)
      {[ "num" := VStr "7"; "msLevel" := VStr "2"; "retentionTime" := VStr "PT1.5S" ]}
      None tt = Ok record
    /\ record !! "msLevel" = Some (VStr "2").
Proof.
  destruct (MzXML._get_info_smart zlib_stored.decompress struct.little
      (gmap string value) unit (fun _ => "scan") (fun e _ _ => Ok e)
      {[ "num" := VStr "7"; "msLevel" := VStr "2"; "retentionTime" := VStr "PT1.5S" ]}
      None tt) as [record|] eqn:H; [|vm_compute in H; discriminate].
  exists record. split; [reflexivity|].
  rewrite (assembled_record_keeps_other_fields zlib_stored.decompress struct.little
             (gmap string value) unit (fun _ => "scan") (fun e _ _ => Ok e)
             {[ "num" := VStr "7"; "msLevel" := VStr "2"; "retentionTime" := VStr "PT1.5S" ]}
             None tt
             {[ "num" := VStr "7"; "msLevel" := VStr "2"; "retentionTime" := VStr "PT1.5S" ]}
             record "msLevel" eq_refl H);
    try discriminate; [vm_compute; reflexivity | left; discriminate].
Defined.

(** X12: when [peaks] holds raw text and the record is assembled, the
    [peaks] entry is gone and the two array entries hold what the
    decoder returns for that text under the record's own [precision]
    and [compressionType]. *)
Theorem raw_peaks_replaced_by_arrays
    (zlib_decompress : list byte -> result (list byte)) (native : struct.byteorder)
    (info record : gmap string value) (text : string) :
  info !! "peaks" = Some (VStr text) ->
  MzXML.post_process zlib_decompress native info = Ok record ->
  exists mz it,
    _decode_peaks zlib_decompress native info text = Ok (mz, it)
    /\ record !! "peaks" = None
    /\ record !! "m/z array" = Some (VArray mz)
    /\ record !! "intensity array" = Some (VArray it).
Proof.
  intros Hp H. apply post_process_Ok in H as (info1 & Hm & Hr).
  assert (Hp' : MzXML.alias_id info !! "peaks" = Some (VStr text))
    by now rewrite alias_id_other.
  destruct (merge_peaks_text_Ok _ _ _ _ _ Hp' Hm) as (mz & it & Hd & ->).
  exists mz, it. split.
  - rewrite <- Hd. apply decode_peaks_entries; symmetry; now apply alias_id_other.
  - split; [|split].
    + apply (retention_time_keeps_None _ _ "peaks" ltac:(discriminate)) in Hr;
        [assumption|].
      rewrite !lookup_insert_ne by discriminate. apply lookup_delete_eq.
    + apply (retention_time_keeps _ _ "m/z array" _ ltac:(discriminate)) with (2 := Hr).
      rewrite lookup_insert_ne by discriminate. apply lookup_insert_eq.
    + apply (retention_time_keeps _ _ "intensity array" _ ltac:(discriminate)) with (2 := Hr).
      apply lookup_insert_eq.
Qed.

Lemma raw_peaks_replaced_by_arrays_witness :
  exists record,
    MzXML.post_process zlib_stored.decompress struct.little
      {[ "precision" := VStr "32"; "peaks" := VStr "QskAAEEgAAA=" ]} = Ok record
    /\ record !! "peaks" = None
    /\ record !! "m/z array" = Some (VArray [b64_round 201 (-1) false])
    /\ record !! "intensity array" = Some (VArray [b64_round 10 0 false]).
Proof.
  destruct (MzXML.post_process zlib_stored.decompress struct.little
              {[ "precision" := VStr "32"; "peaks" := VStr "QskAAEEgAAA=" ]})
    as [record|] eqn:E; [|vm_compute in E; discriminate].
  exists record. split; [reflexivity|].
  destruct (raw_peaks_replaced_by_arrays zlib_stored.decompress struct.little
              {[ "precision" := VStr "32"; "peaks" := VStr "QskAAEEgAAA=" ]}
              record "QskAAEEgAAA=") as (mz & it & Hd & H1 & H2 & H3);
    [vm_compute; reflexivity | exact E |].
  vm_compute in Hd. inversion Hd; subst. auto.
Defined.

(** X13: when the decoder raises on the raw text of [peaks], assembly
    raises the same exception: no record without arrays is returned. *)
Theorem decoder_failure_fails_assembly
    (zlib_decompress : list byte -> result (list byte)) (native : struct.byteorder)
    (info : gmap string value) (text : string) (e : exn) :
  info !! "peaks" = Some (VStr text) ->
  _decode_peaks zlib_decompress native info text = Raise e ->
  MzXML.post_process zlib_decompress native info = Raise e.
Proof.
  intros Hp Hd. rewrite post_process_eq.
  rewrite (merge_peaks_text _ _ _ text) by now rewrite alias_id_other.
  rewrite (decode_peaks_entries _ _ _ info), Hd; [reflexivity | |];
    rewrite lookup_delete_ne by discriminate; now apply alias_id_other.
Qed.

Lemma decoder_failure_fails_assembly_witness :
  MzXML.post_process zlib_stored.decompress struct.little
    {[ "num" := VStr "7"; "precision" := VStr "32"; "peaks" := VStr "QskAA" ]}
  = Raise binascii_Error.
Proof.
  apply (decoder_failure_fails_assembly zlib_stored.decompress struct.little
           {[ "num" := VStr "7"; "precision" := VStr "32"; "peaks" := VStr "QskAA" ]}
           "QskAA"); vm_compute; reflexivity.
Defined.

(** X14: when [peaks] is a list and the record is assembled, the first
    element of the list is a record holding both arrays, these are the
    arrays the assembled record holds, and the [peaks] entry is gone;
    the other elements of the list are not looked at. *)
Theorem child_arrays_copied_up
    (zlib_decompress : list byte -> result (list byte)) (native : struct.byteorder)
    (info record : gmap string value) (l : list value) :
  info !! "peaks" = Some (VList l) ->
  MzXML.post_process zlib_decompress native info = Ok record ->
  exists child rest mz it,
    l = VDict child :: rest
    /\ child !! "m/z array" = Some mz /\ child !! "intensity array" = Some it
    /\ record !! "peaks" = None
    /\ record !! "m/z array" = Some mz
    /\ record !! "intensity array" = Some it.
Proof.
  intros Hp H. apply post_process_Ok in H as (info1 & Hm & Hr).
  assert (Hp' : MzXML.alias_id info !! "peaks" = Some (VList l))
    by now rewrite alias_id_other.
  destruct (merge_peaks_list_Ok _ _ _ _ _ Hp' Hm) as (child & rest & mz & it & -> & Hmz & Hit & ->).
  exists child, rest, mz, it. repeat split; try assumption.
  - apply (retention_time_keeps_None _ _ "peaks" ltac:(discriminate)) in Hr;
      [assumption|].
    rewrite !lookup_insert_ne by discriminate. apply lookup_delete_eq.
  - apply (retention_time_keeps _ _ "m/z array" _ ltac:(discriminate)) with (2 := Hr).
    rewrite lookup_insert_ne by discriminate. apply lookup_insert_eq.
  - apply (retention_time_keeps _ _ "intensity array" _ ltac:(discriminate)) with (2 := Hr).
    apply lookup_insert_eq.
Qed.

Lemma child_arrays_copied_up_witness :
  exists record,
    MzXML.post_process zlib_stored.decompress struct.little
      {[ "peaks" := VList [VDict {[ "m/z array" := VArray [b64_round 201 (-1) false];
                                    "intensity array" := VArray [] ]};
                           VStr "ignored"] ]} = Ok record
    /\ record !! "m/z array" = Some (VArray [b64_round 201 (-1) false])
    /\ record !! "intensity array" = Some (VArray []).
Proof.
  destruct (MzXML.post_process zlib_stored.decompress struct.little
      {[ "peaks" := VList [VDict {[ "m/z array" := VArray [b64_round 201 (-1) false];
                                    "intensity array" := VArray [] ]};
                           VStr "ignored"] ]}) as [record|] eqn:E;
    [|vm_compute in E; discriminate].
  exists record. split; [reflexivity|].
  destruct (child_arrays_copied_up zlib_stored.decompress struct.little
      {[ "peaks" := VList [VDict {[ "m/z array" := VArray [b64_round 201 (-1) false];
                                    "intensity array" := VArray [] ]};
                           VStr "ignored"] ]} record
      [VDict {[ "m/z array" := VArray [b64_round 201 (-1) false];
                "intensity array" := VArray [] ]}; VStr "ignored"])
    as (child & rest & mz & it & Hl & Hmz & Hit & _ & H2 & H3);
    [vm_compute; reflexivity | exact E |].
  inversion Hl; subst. vm_compute in Hmz, Hit. inversion Hmz; inversion Hit; subst.
  auto.
Defined.

(** X15: [info.pop('peaks')[0]] has nothing to return when [peaks] is
    an empty list ([IndexError]) or a dict ([KeyError], a record has no
    key [0]); assembly fails. *)
Theorem peaks_without_first_element_raises
    (zlib_decompress : list byte -> result (list byte)) (native : struct.byteorder)
    (info : gmap string value) (peaks : value) :
  info !! "peaks" = Some peaks ->
  (peaks = VList [] ->
   MzXML.post_process zlib_decompress native info = Raise IndexError)
  /\ (forall d, peaks = VDict d ->
      MzXML.post_process zlib_decompress native info = Raise KeyError).
Proof.
  intros Hp. assert (Hp' : MzXML.alias_id info !! "peaks" = Some peaks)
    by now rewrite alias_id_other.
  split; [intros -> | intros d ->]; rewrite post_process_eq;
    unfold MzXML.merge_peaks; rewrite Hp'; reflexivity.
Qed.

Lemma peaks_without_first_element_raises_witness :
  MzXML.post_process zlib_stored.decompress struct.little
    {[ "peaks" := VList [] ]} = Raise IndexError
  /\ MzXML.post_process zlib_stored.decompress struct.little
       {[ "peaks" := VDict {[ "m/z array" := VArray []; "intensity array" := VArray [] ]} ]}
     = Raise KeyError.
Proof.
  split.
  - apply (peaks_without_first_element_raises zlib_stored.decompress struct.little
             {[ "peaks" := VList [] ]} (VList [])); [vm_compute|]; reflexivity.
  - eapply (peaks_without_first_element_raises zlib_stored.decompress struct.little
             {[ "peaks" := VDict {[ "m/z array" := VArray [];
                                    "intensity array" := VArray [] ]} ]});
      [vm_compute|]; reflexivity.
Defined.

(** X16: once the peaks are merged, a [retentionTime] that is not a
    string stops the assembly with [AttributeError], and a string that
    [float] does not accept after [strip('PTS')] stops it with
    [ValueError]; a duration with minutes such as ["PT1M30S"] is one. *)
Theorem retention_time_errors
    (zlib_decompress : list byte -> result (list byte)) (native : struct.byteorder)
    (info info1 : gmap string value) (v : value) :
  MzXML.merge_peaks zlib_decompress native (MzXML.alias_id info) = Ok info1 ->
  info !! "retentionTime" = Some v ->
  ((forall s, v <> VStr s) ->
   MzXML.post_process zlib_decompress native info = Raise AttributeError)
  /\ (forall s e, v = VStr s -> py_float (str_strip "PTS" s) = Raise e ->
      MzXML.post_process zlib_decompress native info = Raise ValueError).
Proof.
  intros Hm Hv. rewrite post_process_eq, Hm. cbn [mbind result_mbind result_bind].
  unfold MzXML.retention_time.
  rewrite (merge_peaks_other _ _ _ _ "retentionTime" ltac:(discriminate)
             ltac:(discriminate) ltac:(discriminate) Hm).
  rewrite alias_id_other by discriminate. rewrite Hv. split.
  - intros Hs. destruct v; try reflexivity. now destruct (Hs s).
  - intros s e -> He. rewrite He. cbn. now rewrite (py_float_Raise _ _ He).
Qed.

Lemma retention_time_errors_witness :
  MzXML.post_process zlib_stored.decompress struct.little
    {[ "retentionTime" := VStr "PT1M30S" ]} = Raise ValueError
  /\ MzXML.post_process zlib_stored.decompress struct.little
       {[ "retentionTime" := VFloat (b64_round 3 (-1) false) ]} = Raise AttributeError.
Proof.
  split.
  - destruct (retention_time_errors zlib_stored.decompress struct.little
                {[ "retentionTime" := VStr "PT1M30S" ]}
                {[ "retentionTime" := VStr "PT1M30S" ]} (VStr "PT1M30S"))
      as [_ H]; [vm_compute; reflexivity | vm_compute; reflexivity |].
    apply (H "PT1M30S" ValueError); [reflexivity | vm_compute; reflexivity].
  - destruct (retention_time_errors zlib_stored.decompress struct.little
                {[ "retentionTime" := VFloat (b64_round 3 (-1) false) ]}
                {[ "retentionTime" := VFloat (b64_round 3 (-1) false) ]}
                (VFloat (b64_round 3 (-1) false)))
      as [H _]; [vm_compute; reflexivity | vm_compute; reflexivity |].
    apply H. discriminate.
Defined.

(** X17: [strip('PTS')] removes every leading and trailing [P], [T] and
    [S], not only one ["PT"] and one ["S"]: a [retentionTime] made of a
    number wrapped in any such characters is replaced by that number. *)
Theorem retention_time_strips_all_markers
    (zlib_decompress : list byte -> result (list byte)) (native : struct.byteorder)
    (info info1 : gmap string value) (pre r post : list ascii) (f : pyfloat) :
  MzXML.merge_peaks zlib_decompress native (MzXML.alias_id info) = Ok info1 ->
  info !! "retentionTime" = Some (VStr (string_of_list_ascii (pre ++ r ++ post))) ->
  Forall (fun c => char_in c "PTS" = true) pre ->
  Forall (fun c => char_in c "PTS" = true) post ->
  py_float (string_of_list_ascii r) = Ok f ->
  MzXML.post_process zlib_decompress native info
  = Ok (<["retentionTime" := VFloat f]> info1).
Proof.
  intros Hm Hv Hpre Hpost Hf. rewrite post_process_eq, Hm.
  cbn [mbind result_mbind result_bind]. unfold MzXML.retention_time.
  rewrite (merge_peaks_other _ _ _ _ "retentionTime" ltac:(discriminate)
             ltac:(discriminate) ltac:(discriminate) Hm).
  rewrite alias_id_other by discriminate. rewrite Hv.
  rewrite str_strip_wrap; [now rewrite Hf | assumption | assumption |].
  apply py_float_clean_ends in Hf.
  now rewrite list_ascii_of_string_of_list_ascii in Hf.
Qed.

Lemma retention_time_strips_all_markers_witness :
  MzXML.post_process zlib_stored.decompress struct.little
    {[ "retentionTime" := VStr "TPT5SS" ]}
  = Ok {[ "retentionTime" := VFloat (b64_round 5 0 false) ]}.
Proof.
  rewrite (retention_time_strips_all_markers zlib_stored.decompress struct.little
             {[ "retentionTime" := VStr "TPT5SS" ]} {[ "retentionTime" := VStr "TPT5SS" ]}
             (list_ascii_of_string "TPT") (list_ascii_of_string "5")
             (list_ascii_of_string "SS") (b64_round 5 0 false));
    [vm_compute; reflexivity | vm_compute; reflexivity | vm_compute; reflexivity
     | repeat constructor | repeat constructor | vm_compute; reflexivity].
Defined.


(** X19: the schema table gives a pair at most one kind, and it leaves
    the two attributes that the decoder compares with text,
    [peaks.precision] and [peaks.compressionType], as text. *)
Theorem schema_kinds_disjoint (k1 k2 : MzXML.kind) (element field : string) :
  MzXML.in_schema k1 element field = true ->
  MzXML.in_schema k2 element field = true ->
  k1 = k2
  /\ MzXML.in_schema k1 "peaks" "precision" = false
  /\ MzXML.in_schema k1 "peaks" "compressionType" = false.
Proof.
  intros H1 H2. split; [|split; destruct k1; reflexivity].
  unfold MzXML.in_schema in H1.
  destruct k1; cbn [MzXML._default_schema existsb] in H1; try discriminate;
    repeat (apply orb_prop in H1 as [H1|H1]); try discriminate;
    unfold MzXML.pair_eqb in H1; cbn [fst snd] in H1;
    apply andb_prop in H1 as [He Hf];
    apply String.eqb_eq in He, Hf; subst element field;
    destruct k2; try reflexivity; vm_compute in H2; discriminate.
Qed.

Lemma schema_kinds_disjoint_witness :
  MzXML.in_schema MzXML.ints "scanOrigin" "num" = true
  /\ MzXML.in_schema MzXML.floats "scanOrigin" "num" = false
  /\ MzXML.in_schema MzXML.ints "peaks" "precision" = false.
Proof.
  destruct (schema_kinds_disjoint MzXML.ints MzXML.ints "scanOrigin" "num")
    as (_ & H & _); [vm_compute; reflexivity | vm_compute; reflexivity |].
  split; [vm_compute; reflexivity|]. split; [vm_compute; reflexivity | exact H].
Defined.

(** ** The cast loses nothing: distinct patterns give distinct floats *)

Lemma digits2_pos_size (m : positive) : digits2_pos m = Pos.size m.
Proof. induction m; cbn; congruence. Qed.

Lemma digits2_pos_bounds (m : positive) :
  2 ^ (Z.pos (digits2_pos m) - 1) <= Z.pos m < 2 ^ Z.pos (digits2_pos m).
Proof.
  induction m as [m IH|m IH|]; cbn [digits2_pos]; [| |cbn; lia];
    rewrite Pos2Z.inj_succ;
    replace (Z.succ (Z.pos (digits2_pos m)) - 1) with (Z.succ (Z.pos (digits2_pos m) - 1))
      by lia;
    rewrite !Z.pow_succ_r by lia; lia.
Qed.

Lemma iter_xO_mul (m k : positive) : Z.pos (Pos.iter xO m k) = Z.pos m * 2 ^ Z.pos k.
Proof.
  induction k as [|k IH] using Pos.peano_ind.
  - cbn. lia.
  - rewrite Pos.iter_succ, Pos2Z.inj_xO, IH, Pos2Z.inj_succ, Z.pow_succ_r by lia. lia.
Qed.

Lemma digits2_pos_iter_xO (m k : positive) :
  Z.pos (digits2_pos (Pos.iter xO m k)) = Z.pos (digits2_pos m) + Z.pos k.
Proof.
  induction k as [|k IH] using Pos.peano_ind.
  - cbn. lia.
  - rewrite Pos.iter_succ. cbn [digits2_pos]. rewrite Pos2Z.inj_succ, IH. lia.
Qed.

Lemma fexp64 (x : Z) : -1074 <= x - 53 -> fexp prec64 emax64 x = x - 53.
Proof. intros H. unfold fexp, emin, prec64, emax64. lia. Qed.

Lemma binary_round_aux_exact (s : bool) (mz : positive) (ez : Z) :
  Z.pos (digits2_pos mz) = 53 -> -1074 <= ez <= 971 ->
  binary_round_aux prec64 emax64 s (Z.pos mz) ez loc_Exact = S754_finite s mz ez.
Proof.
  intros Hd He. unfold binary_round_aux.
  assert (E : shr_fexp prec64 emax64 (Z.pos mz) ez loc_Exact
              = ({| shr_m := Z.pos mz; shr_r := false; shr_s := false |}, ez)).
  { unfold shr_fexp. cbn [Zdigits2 shr_record_of_loc]. rewrite Hd, fexp64 by lia.
    replace (53 + ez - 53 - ez) with 0 by lia. reflexivity. }
  rewrite E. cbn [shr_m loc_of_shr_record round_nearest_even]. rewrite E.
  cbn [shr_m]. unfold emax64, prec64.
  destruct (Z.leb_spec ez (1024 - 53)); [reflexivity | lia].
Qed.

(** A mantissa of fewer than 53 bits is only shifted into place. *)
Lemma b64_round_exact (s szero : bool) (m : positive) (e : Z) :
  Z.pos (digits2_pos m) < 53 ->
  -1074 <= Z.pos (digits2_pos m) + e - 53 ->
  Z.pos (digits2_pos m) + e <= 1024 ->
  b64_round (cond_Zopp s (Z.pos m)) e szero
  = S754_finite s (Pos.iter xO m (Z.to_pos (53 - Z.pos (digits2_pos m))))
                (Z.pos (digits2_pos m) + e - 53).
Proof.
  intros Hd Hlo Hhi. set (d := Z.pos (digits2_pos m)) in *.
  assert (R : binary_round prec64 emax64 s m e
              = S754_finite s (Pos.iter xO m (Z.to_pos (53 - d))) (d + e - 53)).
  { unfold binary_round. fold d. rewrite fexp64 by lia. unfold shl_align.
    replace (d + e - 53 - e) with (Z.neg (Z.to_pos (53 - d)))
      by (rewrite <- Pos2Z.opp_pos, Z2Pos.id; lia).
    apply binary_round_aux_exact; [|lia].
    rewrite digits2_pos_iter_xO. fold d. rewrite Z2Pos.id; lia. }
  unfold b64_round, binary_normalize. destruct s; cbn [cond_Zopp Z.opp]; exact R.
Qed.

(** The three fields of a 32-bit pattern. *)
Lemma bits32_fields (d : Z) :
  writer.is_uint32 d ->
  let s := Z.testbit d 31 in
  let e := Z.land (Z.shiftr d 23) 255 in
  let m := Z.land d (Z.ones 23) in
  0 <= e < 256 /\ 0 <= m < 2 ^ 23 /\ d = Z.b2z s * 2 ^ 31 + e * 2 ^ 23 + m.
Proof.
  unfold writer.is_uint32. intros Hd. cbv zeta.
  rewrite land_255, Z.land_ones, shiftr_div by lia.
  rewrite Z.testbit_spec' by lia.
  change (2 ^ 32) with 4294967296 in Hd.
  change (2 ^ 31) with 2147483648. change (2 ^ 23) with 8388608.
  assert (H2 : (d / 2147483648) mod 2 = 0 \/ (d / 2147483648) mod 2 = 1) by divmod.
  destruct H2 as [H2|H2]; rewrite H2; cbn [Z.b2z Z.eqb negb]; divmod.
Qed.

(** What the cast returns, by the fields of the pattern. *)
Lemma float_of_bits32_cases (d : Z) :
  writer.is_uint32 d ->
  let s := Z.testbit d 31 in
  let e := Z.land (Z.shiftr d 23) 255 in
  let m := Z.land d (Z.ones 23) in
  let f := ieee754.float_of_bits32 d in
  (e = 255 /\ m = 0 /\ f = S754_infinity s)
  \/ (e = 255 /\ m <> 0 /\ f = S754_nan)
  \/ (e = 0 /\ m = 0 /\ f = S754_zero s)
  \/ (e = 0 /\ exists mz k, f = S754_finite s mz (k - 202) /\ 1 <= k <= 23
                            /\ Z.pos mz = m * 2 ^ (53 - k))
  \/ (0 < e < 255 /\ exists mz, f = S754_finite s mz (e - 179)
                                /\ Z.pos mz = (m + 2 ^ 23) * 2 ^ 29).
Proof.
  intros Hd. destruct (bits32_fields d Hd) as (He & Hm & _). cbv zeta in *.
  unfold ieee754.float_of_bits32.
  set (s := Z.testbit d 31) in *. set (e := Z.land (Z.shiftr d 23) 255) in *.
  set (m := Z.land d (Z.ones 23)) in *.
  change (2 ^ 23) with 8388608 in *.
  destruct (Z.eqb_spec e 255) as [E255|N255].
  { destruct (Z.eqb_spec m 0); [left | right; left]; auto. }
  destruct (Z.eqb_spec e 0) as [E0|N0].
  - destruct m as [|p|p] eqn:Em;
      [right; right; left; repeat split; auto; destruct s; reflexivity | | lia].
    right; right; right; left. split; [assumption|].
    pose proof (digits2_pos_bounds p) as Hb.
    assert (Hk : Z.pos (digits2_pos p) <= 23).
    { destruct (Z.le_gt_cases (Z.pos (digits2_pos p)) 23) as [|C]; [assumption|].
      exfalso. assert (2 ^ 23 <= 2 ^ (Z.pos (digits2_pos p) - 1))
        by (apply Z.pow_le_mono_r; lia).
      change (2 ^ 23) with 8388608 in *. lia. }
    rewrite b64_round_exact by lia.
    eexists _, (Z.pos (digits2_pos p)). split; [f_equal; lia|]. split; [lia|].
    rewrite iter_xO_mul, Z2Pos.id by lia. reflexivity.
  - right; right; right; right. split; [lia|].
    destruct (m + 8388608) as [|p|p] eqn:Em; [lia| |lia].
    pose proof (digits2_pos_bounds p) as Hb.
    assert (Hk : Z.pos (digits2_pos p) = 24).
    { destruct (Z.lt_trichotomy (Z.pos (digits2_pos p)) 24) as [C|[C|C]];
        [exfalso | assumption | exfalso].
      - assert (2 ^ Z.pos (digits2_pos p) <= 2 ^ 23) by (apply Z.pow_le_mono_r; lia).
        change (2 ^ 23) with 8388608 in *. lia.
      - assert (2 ^ 24 <= 2 ^ (Z.pos (digits2_pos p) - 1))
          by (apply Z.pow_le_mono_r; lia).
        change (2 ^ 24) with 16777216 in *. lia. }
    rewrite b64_round_exact by lia. rewrite Hk.
    eexists. split; [f_equal; lia|].
    rewrite iter_xO_mul. reflexivity.
Qed.

(** A pattern that is not a NaN is determined by its float. *)
Lemma float_of_bits32_injective_pattern (x y : Z) :
  writer.is_uint32 x -> writer.is_uint32 y ->
  ieee754.float_of_bits32 x <> S754_nan ->
  ieee754.float_of_bits32 x = ieee754.float_of_bits32 y ->
  x = y.
Proof.
  intros Hx Hy Hnan Heq.
  destruct (bits32_fields x Hx) as (Hex & Hmx & Dx).
  destruct (bits32_fields y Hy) as (Hey & Hmy & Dy).
  pose proof (float_of_bits32_cases x Hx) as Cx.
  pose proof (float_of_bits32_cases y Hy) as Cy.
  cbv zeta in *. rewrite <- Heq in Cy.
  remember (Z.testbit x 31) as sx eqn:Q; clear Q.
  remember (Z.land (Z.shiftr x 23) 255) as ex eqn:Q; clear Q.
  remember (Z.land x (Z.ones 23)) as mx eqn:Q; clear Q.
  remember (Z.testbit y 31) as sy eqn:Q; clear Q.
  remember (Z.land (Z.shiftr y 23) 255) as ey eqn:Q; clear Q.
  remember (Z.land y (Z.ones 23)) as my eqn:Q; clear Q.
  remember (ieee754.float_of_bits32 x) as f eqn:Q; clear Q Heq.
  assert (G : sx = sy /\ ex = ey /\ mx = my).
  { clear Dx Dy Hx Hy.
    destruct Cx as [(E1 & M1 & F1) | [(E1 & M1 & F1) | [(E1 & M1 & F1)
                     | [(E1 & mz1 & k1 & F1 & K1 & Z1) | (E1 & mz1 & F1 & Z1)]]]];
      [| contradiction | | |];
      destruct Cy as [(E2 & M2 & F2) | [(E2 & M2 & F2) | [(E2 & M2 & F2)
                     | [(E2 & mz2 & k2 & F2 & K2 & Z2) | (E2 & mz2 & F2 & Z2)]]]];
      rewrite F1 in F2; try discriminate; inversion F2; subst;
      try (repeat split; (congruence || lia)).
    assert (k1 = k2) by lia. subst k2. repeat split.
    rewrite Z1 in Z2. apply Z.mul_reg_r in Z2; [assumption|].
    apply Z.pow_nonzero; lia. }
  destruct G as (Gs & Ge & Gm). rewrite Dx, Dy, Gs, Ge, Gm. reflexivity.
Qed.

(** X20: the cast of line 39 loses no information: a pattern that is
    not a NaN is the only 32-bit pattern that decodes to its float. *)
Theorem float_of_bits32_injective (x y : Z) :
  writer.is_uint32 x -> writer.is_uint32 y ->
  ieee754.float_of_bits32 x <> S754_nan ->
  ieee754.float_of_bits32 x = ieee754.float_of_bits32 y ->
  x = y.
Proof. apply float_of_bits32_injective_pattern. Qed.

Lemma float_of_bits32_injective_witness :
  writer.is_uint32 0x42C90000
  /\ ieee754.float_of_bits32 0x42C90000 <> S754_nan
  /\ 0x42C90000 = 0x42C90000.
Proof.
  assert (H : writer.is_uint32 0x42C90000) by (unfold writer.is_uint32; lia).
  assert (N : ieee754.float_of_bits32 0x42C90000 <> S754_nan)
    by (vm_compute; discriminate).
  split; [exact H|]. split; [exact N|].
  exact (float_of_bits32_injective 0x42C90000 0x42C90000 H H N eq_refl).
Defined.

Lemma alternate_inj {A : Type} (l1 : list A) :
  forall l2,
  writer.alternate true l1 = writer.alternate true l2 ->
  writer.alternate false l1 = writer.alternate false l2 ->
  l1 = l2.
Proof.
  induction l1 as [|x l1 IH]; intros [|y l2] Ht Hf; cbn in Ht, Hf;
    try reflexivity; try discriminate.
  inversion Ht; subst. f_equal. now apply IH.
Qed.

Lemma map_float_of_bits32_inj (l1 : list Z) :
  forall l2,
  Forall writer.is_uint32 l1 -> Forall writer.is_uint32 l2 ->
  Forall (fun d => ieee754.float_of_bits32 d <> S754_nan) l1 ->
  map ieee754.float_of_bits32 l1 = map ieee754.float_of_bits32 l2 ->
  l1 = l2.
Proof.
  induction l1 as [|x l1 IH]; intros [|y l2] H1 H2 Hn E; cbn in E;
    try reflexivity; try discriminate.
  inversion H1; inversion H2; inversion Hn; inversion E; subst.
  f_equal; [now apply float_of_bits32_injective_pattern | now apply IH].
Qed.

Lemma Forall_alternate {A : Type} (P : A -> Prop) (l : list A) :
  Forall P l -> forall take, Forall P (writer.alternate take l).
Proof.
  induction 1 as [|x l Hx _ IH]; intros take; [constructor|].
  destruct take; cbn; [constructor; [assumption|]|]; apply IH.
Qed.

(** A sequence of patterns written uncompressed at precision 32 reads
    back as its floats, split by position. *)
Lemma decode_packed (zlib_decompress : list byte -> result (list byte))
      (native : struct.byteorder) (info : gmap string value) (ws : list Z) :
  Forall writer.is_uint32 ws ->
  info !! "precision" = Some (VStr "32") ->
  info !! "compressionType" <> Some (VStr "zlib") ->
  _decode_peaks zlib_decompress native info (writer.b64text (writer.pack_BE_L ws))
  = Ok (map ieee754.float_of_bits32 (writer.evens ws),
        map ieee754.float_of_bits32 (writer.odds ws)).
Proof.
  intros Hws Hp Hc.
  rewrite (decode_peaks_raw zlib_decompress native info _ (writer.pack_BE_L ws)).
  - rewrite decode_buffer_32; [now rewrite words_be_pack | assumption |].
    rewrite length_pack. divmod.
  - rewrite raw_buffer_b64text. apply get_eq_str_false in Hc. now rewrite Hc.
Qed.

(** X21: two NaN-free sequences of 32-bit values whose encodings decode
    to the same pair of arrays are the same sequence, bit for bit:
    nothing is lost between the encoded text and the arrays. *)
Theorem decoded_arrays_determine_values
    (zlib_decompress : list byte -> result (list byte)) (native : struct.byteorder)
    (info : gmap string value) (ws1 ws2 : list Z) :
  Forall writer.is_uint32 ws1 -> Forall writer.is_uint32 ws2 ->
  Forall (fun d => ieee754.float_of_bits32 d <> S754_nan) ws1 ->
  info !! "precision" = Some (VStr "32") ->
  info !! "compressionType" <> Some (VStr "zlib") ->
  _decode_peaks zlib_decompress native info (writer.b64text (writer.pack_BE_L ws1))
  = _decode_peaks zlib_decompress native info (writer.b64text (writer.pack_BE_L ws2)) ->
  ws1 = ws2.
Proof.
  intros H1 H2 Hn Hp Hc. rewrite !decode_packed by assumption.
  intros E. inversion E as [[Ee Eo]].
  apply alternate_inj; apply map_float_of_bits32_inj;
    try apply Forall_alternate; assumption.
Qed.

Lemma decoded_arrays_determine_values_witness :
  Forall (fun d => ieee754.float_of_bits32 d <> S754_nan) [0x42C90000; 0x41200000]
  /\ [0x42C90000; 0x41200000] = [0x42C90000; 0x41200000].
Proof.
  assert (N : Forall (fun d => ieee754.float_of_bits32 d <> S754_nan)
                     [0x42C90000; 0x41200000])
    by (repeat constructor; vm_compute; discriminate).
  split; [exact N|].
  apply (decoded_arrays_determine_values zlib_stored.decompress struct.little
           {[ "precision" := VStr "32" ]} [0x42C90000; 0x41200000]
           [0x42C90000; 0x41200000]).
  - repeat constructor; unfold writer.is_uint32; lia.
  - repeat constructor; unfold writer.is_uint32; lia.
  - exact N.
  - vm_compute; reflexivity.
  - vm_compute; discriminate.
  - reflexivity.
Defined.
